(** * Resource quantities and deployment-template validation (devtron)

    A shallow embedding of [util/helper.go] (quantity parsing and the
    stand-alone [Autoscale] check) and of the [DeploymentTemplateValidate]
    package (format checkers and the validation entry point).

    Go strings are byte sequences: they are [string]s here, one [ascii] per
    byte.  [float64] values are IEEE-754 binary64 numbers in the executable
    specification [SpecFloat] of the standard library, so every arithmetic
    step rounds as the hardware does.  Go maps are [gmap]s. *)

From Stdlib Require Import ZArith Bool Ascii String SpecFloat Lia.
From stdpp Require Import base option list gmap strings.

Set Default Proof Using "Type".
#[local] Set Warnings "-register-all".

(** ** float64 *)

Abbreviation float64 := spec_float.

Definition f64_prec : Z := 53.
Definition f64_emax : Z := 1024.

Definition f64_mul : float64 -> float64 -> float64 := SFmul f64_prec f64_emax.
Definition f64_div : float64 -> float64 -> float64 := SFdiv f64_prec f64_emax.

(** Go's [<] on float64. *)
Definition f64_lt : float64 -> float64 -> bool := SFltb.

Definition f64_zero : float64 := S754_zero false.
Definition f64_inf : float64 := S754_infinity false.

(** [float64(n)] for an integer constant [n]: the nearest binary64. *)
Definition f64_of_Z (n : Z) : float64 := binary_normalize f64_prec f64_emax n 0 false.

(** The binary64 nearest to [(-1)^neg * m * 10^e] (ties to even): what a Go
    decimal constant denotes and what a decimal text converts to. *)
Definition f64_of_decimal (neg : bool) (m : Z) (e : Z) : float64 :=
  match m with
  | Zpos p =>
      if (0 <=? e)%Z
      then binary_normalize f64_prec f64_emax
             (if neg then Z.opp (m * 10 ^ e) else (m * 10 ^ e))%Z 0 neg
      else f64_div (S754_finite neg p 0)
                   (S754_finite false (Z.to_pos (10 ^ (- e))) 0)
  | _ => S754_zero neg
  end.

Definition f64_is_inf (x : float64) : bool :=
  match x with S754_infinity _ => true | _ => false end.

(** ** Errors and outcomes *)

Inductive num_err := ErrSyntax | ErrRange.

(** Go [error] values: [*strconv.NumError], and the errors made by
    [errors.New] and [fmt.Errorf], which carry their message. *)
Inductive error :=
| NumError (func num : string) (err : num_err)
| ErrorString (msg : string).

(** A call either returns or panics (a failed type assertion, an index out
    of range). *)
Inductive outcome (A : Type) :=
| Ret (a : A)
| Panic (msg : string).
Arguments Ret {A} a.
Arguments Panic {A} msg.

#[global] Instance outcome_ret : MRet outcome := fun A a => Ret a.
#[global] Instance outcome_bind : MBind outcome := fun A B f o =>
  match o with
  | Ret a => f a
  | Panic msg => Panic msg
  end.

(** ** Characters and text *)

Definition byte_le (a b : ascii) : bool := (nat_of_ascii a <=? nat_of_ascii b)%nat.

(** [lo-hi] ranges of a character class, as in the pattern text. *)
Definition charclass := list (ascii * ascii).

Definition in_class (cls : charclass) (c : ascii) : bool :=
  existsb (fun r => byte_le (fst r) c && byte_le c (snd r)) cls.

(** [\d] *)
Definition cls_digit : charclass := [("0", "9")]%char.
(** [[0-9.]] *)
Definition cls_digit_dot : charclass := [("0", "9"); (".", ".")]%char.

Definition is_digit : ascii -> bool := in_class cls_digit.

(** The longest prefix whose bytes satisfy [p], and the rest. *)
Fixpoint span (p : ascii -> bool) (s : string) : string * string :=
  match s with
  | String c s' =>
      if p c then let '(m, r) := span p s' in (String c m, r) else (EmptyString, s)
  | EmptyString => (EmptyString, EmptyString)
  end.

Fixpoint all_bytes (p : ascii -> bool) (s : string) : bool :=
  match s with
  | String c s' => p c && all_bytes p s'
  | EmptyString => true
  end.

Definition is_empty (s : string) : bool :=
  match s with EmptyString => true | _ => false end.

Fixpoint drop_bytes (n : nat) (s : string) : string :=
  match n, s with
  | S n', String _ s' => drop_bytes n' s'
  | _, _ => s
  end.

(** The value of a run of decimal digits. *)
Fixpoint digits_value (acc : Z) (s : string) : Z :=
  match s with
  | String c s' => digits_value (10 * acc + (Z.of_nat (nat_of_ascii c) - 48))%Z s'
  | EmptyString => acc
  end.

(** An optional leading [+] or [-]. *)
Definition read_sign (s : string) : bool * string :=
  match s with
  | String "-" s' => (true, s')
  | String "+" s' => (false, s')
  | _ => (false, s)
  end.

Definition to_lower (c : ascii) : ascii :=
  if byte_le "A" c && byte_le c "Z" then ascii_of_nat (nat_of_ascii c + 32) else c.

Fixpoint lower (s : string) : string :=
  match s with
  | String c s' => String (to_lower c) (lower s')
  | EmptyString => EmptyString
  end.

(** ** The Go standard library, as far as [util] calls it *)

Module strings.

(** [strings.Replace(s, ",", "", -1)]: every occurrence of the one-byte
    string [old] is removed. *)
Fixpoint remove_all (old : ascii) (s : string) : string :=
  match s with
  | String c s' => if Ascii.eqb c old then remove_all old s' else String c (remove_all old s')
  | EmptyString => EmptyString
  end.

Fixpoint mem (c : ascii) (chars : string) : bool :=
  match chars with
  | String d r => Ascii.eqb c d || mem c r
  | EmptyString => false
  end.

(** [strings.IndexAny(s, chars)]: the index of the first byte of [s] that
    is in [chars], or [-1]. *)
Fixpoint IndexAny (s chars : string) : Z :=
  match s with
  | String c s' =>
      if mem c chars then 0%Z
      else let i := IndexAny s' chars in if (i <? 0)%Z then (-1)%Z else (i + 1)%Z
  | EmptyString => (-1)%Z
  end.

End strings.

Module strconv.

(** The exponent part of a decimal literal: nothing, or [e]/[E], an
    optional sign and at least one digit, up to the end of the text. *)
Definition read_exponent (s : string) : option Z :=
  match s with
  | EmptyString => Some 0%Z
  | String c t =>
      if Ascii.eqb (to_lower c) "e" then
        let '(neg, t1) := read_sign t in
        let '(ds, t2) := span is_digit t1 in
        if is_empty ds || negb (is_empty t2) then None
        else Some (if neg then Z.opp (digits_value 0 ds) else digits_value 0 ds)
      else None
  end.

Definition special (s : string) : option float64 :=
  let l := lower s in
  if String.eqb l "inf" || String.eqb l "infinity"
     || String.eqb l "+inf" || String.eqb l "+infinity" then Some (S754_infinity false)
  else if String.eqb l "-inf" || String.eqb l "-infinity" then Some (S754_infinity true)
  else if String.eqb l "nan" then Some S754_nan
  else None.

(** [strconv.ParseFloat(s, 64)] on decimal text: an optional sign, digits
    with an optional point, an optional exponent, and the special values.
    The result is the nearest binary64; a text that is syntactically wrong
    gives [0] and [ErrSyntax], one that rounds to an infinity gives that
    infinity and [ErrRange].  Hexadecimal mantissas and digit-separating
    underscores are outside this model and reported as syntax errors; no
    text captured by the quantity patterns contains them. *)
Definition ParseFloat (s : string) : float64 * option error :=
  let syntax := (f64_zero, Some (NumError "ParseFloat" s ErrSyntax)) in
  match special s with
  | Some v => (v, None)
  | None =>
      let '(neg, s1) := read_sign s in
      let '(ip, s2) := span is_digit s1 in
      let '(fp, s3) :=
        match s2 with
        | String "." t => span is_digit t
        | _ => (EmptyString, s2)
        end in
      if is_empty ip && is_empty fp then syntax
      else
        match read_exponent s3 with
        | None => syntax
        | Some e10 =>
            let v := f64_of_decimal neg (digits_value 0 (ip +:+ fp))
                       (e10 - Z.of_nat (String.length fp)) in
            if f64_is_inf v then (v, Some (NumError "ParseFloat" s ErrRange))
            else (v, None)
        end
  end.

(** [strconv.ParseInt(s, 10, 64)]: an optional sign and at least one
    digit; a value outside int64 is clamped and reported with [ErrRange]. *)
Definition ParseInt (s : string) : Z * option error :=
  let syntax := (0%Z, Some (NumError "ParseInt" s ErrSyntax)) in
  let '(neg, s1) := read_sign s in
  if is_empty s1 || negb (all_bytes is_digit s1) then syntax
  else
    let n := digits_value 0 s1 in
    if neg then
      if (2 ^ 63 <? n)%Z then ((- 2 ^ 63)%Z, Some (NumError "ParseInt" s ErrRange))
      else ((- n)%Z, None)
    else
      if (2 ^ 63 <=? n)%Z then ((2 ^ 63 - 1)%Z, Some (NumError "ParseInt" s ErrRange))
      else (n, None).

End strconv.

Module math.

(** [math.Pow10(n)]: [pow10postab32[n/32] * pow10tab[n%32]] for
    [0 <= n <= 308], [pow10negtab32[-n/32] / pow10tab[-n%32]] for
    [-323 <= n <= 0], and [+Inf] or [0] beyond; the table entries are the
    constants [1e0 .. 1e31], [1e0, 1e32 .. 1e288] and [1e-0, 1e-32 .. 1e-320]. *)
Definition pow10tab (i : Z) : float64 := f64_of_decimal false 1 i.
Definition pow10postab32 (i : Z) : float64 := f64_of_decimal false 1 (32 * i).
Definition pow10negtab32 (i : Z) : float64 := f64_of_decimal false 1 (- (32 * i)).

Definition Pow10 (n : Z) : float64 :=
  if (0 <=? n)%Z && (n <=? 308)%Z then
    f64_mul (pow10postab32 (n / 32)) (pow10tab (n mod 32))
  else if (-323 <=? n)%Z && (n <=? 0)%Z then
    f64_div (pow10negtab32 ((- n) / 32)) (pow10tab ((- n) mod 32))
  else if (0 <? n)%Z then f64_inf
  else f64_zero.

End math.

(** ** util.ParseFloat *)

(** [str[lo:hi]] *)
Definition slice (str : string) (lo hi : nat) : string := substring lo (hi - lo) str.

Definition ParseFloat (str : string) : float64 * option error :=
  match strconv.ParseFloat str with
  | (val, None) => (val, None)
  | (_, Some _) =>
      (* Some number may be separated by comma, so remove the comma firstly *)
      let str := strings.remove_all "," str in
      (* Some number is specified in scientific notation *)
      let pos := strings.IndexAny str "eE" in
      if (pos <? 0)%Z then strconv.ParseFloat str
      else
        let baseStr := slice str 0 (Z.to_nat pos) in
        match strconv.ParseFloat baseStr with
        | (_, Some err) => (f64_zero, Some err)
        | (baseVal, None) =>
            let expStr := slice str (Z.to_nat (pos + 1)) (String.length str) in
            match strconv.ParseInt expStr with
            | (_, Some err) => (f64_zero, Some err)
            | (expVal, None) => (f64_mul baseVal (math.Pow10 expVal), None)
            end
        end
  end.

(** ** Package regexp

    The patterns of this program use literals, character classes, greedy
    [*], [+] and [?], alternation, capturing groups, [^] and [$].  [*] and
    [+] are only ever applied to a character class, which is how the syntax
    below has them.  Matching is Go's leftmost-first matching: among the
    matches that start at the leftmost possible position, the one a
    backtracking search finds first. *)

Module regexp.

Inductive Regexp :=
| Chr (c : ascii)                (* a literal byte *)
| Class (cls : charclass)        (* one byte of a class *)
| Star (cls : charclass)         (* cls*, greedy *)
| Plus (cls : charclass)         (* cls+, greedy *)
| Opt (r : Regexp)                (* r?, greedy *)
| Cat (r1 r2 : Regexp)
| Alt (r1 r2 : Regexp)
| Group (i : nat) (r : Regexp)    (* the i-th capturing group *)
| BeginText                      (* ^ *)
| EndText.                       (* $ without the m flag: end of text *)

(** The text captured by each group so far, latest first. *)
Definition caps := list (nat * string).

Fixpoint cap (i : nat) (c : caps) : string :=
  match c with
  | (j, m) :: c' => if (i =? j)%nat then m else cap i c'
  | [] => EmptyString
  end.

Fixpoint NumSubexp (r : Regexp) : nat :=
  match r with
  | Opt r1 => NumSubexp r1
  | Cat r1 r2 | Alt r1 r2 => NumSubexp r1 + NumSubexp r2
  | Group _ r1 => S (NumSubexp r1)
  | _ => 0
  end.

Record match_result := MatchResult {
  m_start : nat;
  m_end : nat;
  m_text : string;
  m_caps : caps
}.

Section Matcher.
Context {R : Type}.

(** [star cls s pos k]: the prefixes of [s] in [cls*], longest first; [k]
    gets the matched text, the position after it and the rest. *)
Fixpoint star (cls : charclass) (s : string) (pos : nat)
    (k : string -> nat -> string -> option R) : option R :=
  match s with
  | String a s' =>
      if in_class cls a then
        match star cls s' (S pos) (fun m => k (String a m)) with
        | Some r => Some r
        | None => k EmptyString pos s
        end
      else k EmptyString pos s
  | EmptyString => k EmptyString pos s
  end.

(** [mtch r s pos c k]: match [r] at position [pos], where the text that
    remains is [s] and the groups closed so far are [c]; the continuation
    [k] receives the text matched by [r], the new position, the remaining
    text and the groups, and fails to make the matcher backtrack. *)
Fixpoint mtch (r : Regexp) (s : string) (pos : nat) (c : caps)
    (k : string -> nat -> string -> caps -> option R) : option R :=
  match r with
  | Chr a =>
      match s with
      | String b s' => if Ascii.eqb a b then k (String b EmptyString) (S pos) s' c else None
      | EmptyString => None
      end
  | Class cls =>
      match s with
      | String b s' => if in_class cls b then k (String b EmptyString) (S pos) s' c else None
      | EmptyString => None
      end
  | Star cls => star cls s pos (fun m p s' => k m p s' c)
  | Plus cls =>
      match s with
      | String b s' =>
          if in_class cls b
          then star cls s' (S pos) (fun m p s'' => k (String b m) p s'' c)
          else None
      | EmptyString => None
      end
  | Opt r1 =>
      match mtch r1 s pos c k with
      | Some x => Some x
      | None => k EmptyString pos s c
      end
  | Cat r1 r2 =>
      mtch r1 s pos c (fun m1 p1 s1 c1 =>
        mtch r2 s1 p1 c1 (fun m2 p2 s2 c2 => k (m1 +:+ m2) p2 s2 c2))
  | Alt r1 r2 =>
      match mtch r1 s pos c k with
      | Some x => Some x
      | None => mtch r2 s pos c k
      end
  | Group i r1 => mtch r1 s pos c (fun m p s' c' => k m p s' ((i, m) :: c'))
  | BeginText => if (pos =? 0)%nat then k EmptyString pos s c else None
  | EndText =>
      match s with
      | EmptyString => k EmptyString pos s c
      | _ => None
      end
  end.

End Matcher.

(** A match of [re] that starts exactly at [pos]. *)
Definition match_at (re : Regexp) (s : string) (pos : nat) : option match_result :=
  mtch re s pos [] (fun m p _ c => Some (MatchResult pos p m c)).

(** The leftmost match that starts at [pos] or later; [s] is the text from
    [pos] on. *)
Fixpoint search (re : Regexp) (s : string) (pos : nat) : option match_result :=
  match match_at re s pos with
  | Some m => Some m
  | None =>
      match s with
      | String _ s' => search re s' (S pos)
      | EmptyString => None
      end
  end.

Definition same_pos (a : nat) (b : option nat) : bool :=
  match b with Some b' => (a =? b')%nat | None => false end.

(** The loop of [Regexp.allMatches] with [n = -1]: successive matches, an
    empty match right after the previous match being dropped, the search
    resuming after the match, or one byte further after an empty one.
    Every round moves [pos] forward, so [length s + 1] rounds are enough. *)
Fixpoint allMatches (fuel : nat) (re : Regexp) (s : string) (pos : nat)
    (prevMatchEnd : option nat) : list match_result :=
  match fuel with
  | O => []
  | S fuel' =>
      match search re s pos with
      | None => []
      | Some m =>
          if (m_end m =? pos)%nat then
            let accept := negb (same_pos (m_start m) prevMatchEnd) in
            let later :=
              match s with
              | String _ s' => allMatches fuel' re s' (S pos) (Some (m_end m))
              | EmptyString => []
              end in
            if accept then m :: later else later
          else
            m :: allMatches fuel' re (drop_bytes (m_end m - pos) s) (m_end m) (Some (m_end m))
      end
  end.

(** The strings of one match: the whole match, then every group in
    order, empty for a group that took no part. *)
Definition submatches (re : Regexp) (m : match_result) : list string :=
  m_text m :: map (fun i => cap i (m_caps m)) (seq 1 (NumSubexp re)).

Definition FindAllStringSubmatch (re : Regexp) (s : string) : list (list string) :=
  map (submatches re) (allMatches (S (String.length s)) re s 0 None).

Definition MatchString (re : Regexp) (s : string) : bool :=
  match search re s 0 with Some _ => true | None => false end.

End regexp.

(** ** util: resource parsers *)

Record resourceParser := {
  name : string;
  pattern : string;
  regex : regexp.Regexp;
  conversions : gmap string float64
}.

(** Group 1 of both patterns: digits, an optional [e], digits. *)
Definition literal_re : regexp.Regexp :=
  regexp.Group 1
    (regexp.Cat (regexp.Star cls_digit)
       (regexp.Cat (regexp.Opt (regexp.Chr "e")) (regexp.Star cls_digit))).

(** A unit letter and an optional [i]. *)
Definition unit_re (x : ascii) : regexp.Regexp :=
  regexp.Cat (regexp.Chr x) (regexp.Opt (regexp.Chr "i")).

(** Group 2 of the memory pattern: one of the six unit letters with an
    optional [i], or the end of the text. *)
Definition memory_suffix_re : regexp.Regexp :=
  regexp.Group 2
    (regexp.Alt (unit_re "E") (regexp.Alt (unit_re "P") (regexp.Alt (unit_re "T")
      (regexp.Alt (unit_re "G") (regexp.Alt (unit_re "M") (regexp.Alt (unit_re "K")
        regexp.EndText)))))).

(** Group 2 of the cpu pattern: an optional [m]. *)
Definition cpu_suffix_re : regexp.Regexp :=
  regexp.Group 2 (regexp.Opt (regexp.Chr "m")).

(** The parser built on the first call of [MemoryToNumber] and kept in the
    package variable [memoryParser]. *)
Definition memoryParser : resourceParser := {|
  name := "memory";
  pattern := "(\d*e?\d*)(Ei?|Pi?|Ti?|Gi?|Mi?|Ki?|$)";
  regex := regexp.Cat literal_re memory_suffix_re;
  conversions := list_to_map [
    ("E", f64_of_Z 1000000000000000000);
    ("P", f64_of_Z 1000000000000000);
    ("T", f64_of_Z 1000000000000);
    ("G", f64_of_Z 1000000000);
    ("M", f64_of_Z 1000000);
    ("K", f64_of_Z 1000);
    ("Ei", f64_of_Z 1152921504606846976);
    ("Pi", f64_of_Z 1125899906842624);
    ("Ti", f64_of_Z 1099511627776);
    ("Gi", f64_of_Z 1073741824);
    ("Mi", f64_of_Z 1048576);
    ("Ki", f64_of_Z 1024)]
|}.

(** The parser kept in the package variable [cpuParser]. *)
Definition cpuParser : resourceParser := {|
  name := "cpu";
  pattern := "(\d*e?\d*)(m?)";
  regex := regexp.Cat literal_re cpu_suffix_re;
  conversions := list_to_map [("m", f64_of_decimal false 1 (-3))]
|}.

(** [l[i]]: panics when [i] is out of range. *)
Definition index {A} (l : list A) (i : nat) : outcome A :=
  match l !! i with
  | Some x => Ret x
  | None => Panic "index out of range"
  end.

Definition pattern_error (rp : resourceParser) (resource : string) : error :=
  ErrorString ("expected pattern for " +:+ name rp +:+ " should match "
               +:+ pattern rp +:+ ", found " +:+ resource).

(** What is written to standard output by [fmt.Printf] and [fmt.Println]
    is not part of the result and is left out. *)
Definition convertResource (rp : resourceParser) (resource : string)
    : outcome (float64 * option error) :=
  let matches := regexp.FindAllStringSubmatch (regex rp) resource in
  m0 ← index matches 0;
  if (length m0 <? 2)%nat then Ret (f64_zero, Some (pattern_error rp resource))
  else
    lit ← index m0 1;
    match ParseFloat lit with
    | (_, Some err) => Ret (f64_zero, Some err)
    | (num, None) =>
        if (length m0 =? 3)%nat then
          unit ← index m0 2;
          if negb (is_empty unit) then
            match conversions rp !! unit with
            | Some suffix => Ret (f64_mul num suffix, None)
            | None => Ret (f64_zero, Some (pattern_error rp resource))
            end
          else Ret (num, None)
        else Ret (num, None)
    end.

Definition MemoryToNumber (memory : string) : outcome (float64 * option error) :=
  convertResource memoryParser memory.

Definition CpuToNumber (cpu : string) : outcome (float64 * option error) :=
  convertResource cpuParser cpu.

(** ** Documents

    A decoded JSON document, the [interface{}] trees that [encoding/json]
    produces: [nil], [bool], [float64], [string], [[]interface{}] and
    [map[string]interface{}]. *)

Inductive value :=
| VNil
| VBool (b : bool)
| VNumber (f : float64)
| VString (s : string)
| VArray (l : list value)
| VMap (m : gmap string value).

(** [m[k]]: the zero value [nil] when the key is missing. *)
Definition map_index (m : gmap string value) (k : string) : value :=
  default VNil (m !! k).

(** [v.(map[string]interface{})], which panics on any other dynamic type,
    [nil] included. *)
Definition assert_map (v : value) : outcome (gmap string value) :=
  match v with
  | VMap m => Ret m
  | _ => Panic "interface conversion: interface {} is not map[string]interface {}"
  end.

(** [m, ok := v.(map[string]interface{})] *)
Definition assert_map_ok (v : value) : option (gmap string value) :=
  match v with
  | VMap m => Some m
  | _ => None
  end.

Definition assert_string (v : value) : outcome string :=
  match v with
  | VString s => Ret s
  | _ => Panic "interface conversion: interface {} is not string"
  end.

Definition assert_bool (v : value) : outcome bool :=
  match v with
  | VBool b => Ret b
  | _ => Panic "interface conversion: interface {} is not bool"
  end.

(** [v, ok := dat[a].(map[string]interface{})[b]] *)
Definition path2 (dat : gmap string value) (a b : string) : outcome (option value) :=
  m1 ← assert_map (map_index dat a);
  Ret (m1 !! b).

(** [v, ok := dat[a].(map[string]interface{})[b].(map[string]interface{})[c]] *)
Definition path3 (dat : gmap string value) (a b c : string) : outcome (option value) :=
  m1 ← assert_map (map_index dat a);
  m2 ← assert_map (map_index m1 b);
  Ret (m2 !! c).

Definition path4 (dat : gmap string value) (a b c d : string) : outcome (option value) :=
  m1 ← assert_map (map_index dat a);
  m2 ← assert_map (map_index m1 b);
  m3 ← assert_map (map_index m2 c);
  Ret (m3 !! d).

(** [v, ok := e; if !ok { return false, errors.New(msg) }] followed by [k]. *)
Definition require {A} (e : outcome (option A)) (msg : string)
    (k : A -> outcome (bool * option error)) : outcome (bool * option error) :=
  o ← e;
  match o with
  | Some v => k v
  | None => Ret (false, Some (ErrorString msg))
  end.

(** ** Package DeploymentTemplateValidate: format checkers *)

Definition anchored_units (cls : charclass) (a b : ascii) : regexp.Regexp :=
  regexp.Cat regexp.BeginText
    (regexp.Cat (regexp.Plus cls)
       (regexp.Cat (regexp.Chr a) (regexp.Cat (regexp.Chr b) regexp.EndText))).

(** [^([0-9.]+)m$] *)
Definition CpuUnitChecker : regexp.Regexp :=
  regexp.Cat regexp.BeginText
    (regexp.Cat (regexp.Group 1 (regexp.Plus cls_digit_dot))
       (regexp.Cat (regexp.Chr "m") regexp.EndText)).

(** [^([0-9.]+)$] *)
Definition NoCpuUnitChecker : regexp.Regexp :=
  regexp.Cat regexp.BeginText
    (regexp.Cat (regexp.Group 1 (regexp.Plus cls_digit_dot)) regexp.EndText).

(** [^[0-9]+Mi$] and its four siblings *)
Definition MiChecker : regexp.Regexp := anchored_units cls_digit "M" "i".
Definition GiChecker : regexp.Regexp := anchored_units cls_digit "G" "i".
Definition TiChecker : regexp.Regexp := anchored_units cls_digit "T" "i".
Definition PiChecker : regexp.Regexp := anchored_units cls_digit "P" "i".
Definition KiChecker : regexp.Regexp := anchored_units cls_digit "K" "i".

Definition CpuChecker_IsFormat (input : value) : bool :=
  match input with
  | VString asString =>
      if regexp.MatchString CpuUnitChecker asString then true
      else if regexp.MatchString NoCpuUnitChecker asString then true
      else false
  | _ => true
  end.

Definition MemoryChecker_IsFormat (input : value) : bool :=
  match input with
  | VString asString =>
      if regexp.MatchString MiChecker asString then true
      else if regexp.MatchString GiChecker asString then true
      else if regexp.MatchString TiChecker asString then true
      else if regexp.MatchString PiChecker asString then true
      else if regexp.MatchString KiChecker asString then true
      else false
  | _ => true
  end.

Definition dquote : string := String "034"%char EmptyString.

(** ["100Mi" or "1Gi" or "1Ti"], quotes included *)
Definition memoryPattern : string :=
  dquote +:+ "100Mi" +:+ dquote +:+ " or " +:+ dquote +:+ "1Gi" +:+ dquote
  +:+ " or " +:+ dquote +:+ "1Ti" +:+ dquote.

(** ["50m" or "0.05"], quotes included *)
Definition cpuPattern : string :=
  dquote +:+ "50m" +:+ dquote +:+ " or " +:+ dquote +:+ "0.05" +:+ dquote.

Definition cpu : string := "cpu".
Definition memory : string := "memory".

(** [gojsonschema.FormatCheckers] after the two calls of [Add]. *)
Definition FormatCheckers : list (string * (value -> bool)) :=
  [("cpu", CpuChecker_IsFormat); ("memory", MemoryChecker_IsFormat)].

(** ** The schema engine (gojsonschema), seen through its interface *)

(** One [ResultError]: [Field()], [Details()["format"]] when it is a
    string, and [String()]. *)
Record ResultError := {
  Field : string;
  format : option string;
  String_ : string
}.

(** A [*gojsonschema.Result]: [Valid()] and [Errors()]. *)
Record Result := {
  Valid : bool;
  Errors : list ResultError
}.

Definition newline : string := String "010"%char EmptyString.

Section Validate.

(** [os.Stat("schema/<name>.json")] raises no error. *)
Variable schema_exists : string -> bool.
(** [schemajson] after [os.Open], [ioutil.ReadAll] and [json.Unmarshal],
    whose errors are logged or dropped: [VNil] when nothing was decoded. *)
Variable load_schema : string -> value.
(** The error of [json.Marshal(templatejson)], if any. *)
Variable json_Marshal : value -> option error.
(** [gojsonschema.Validate], with the format checkers registered in
    [gojsonschema.FormatCheckers]. *)
Variable gojsonschema_Validate :
  list (string * (value -> bool)) -> value -> value -> Result * option error.

(** [json.Unmarshal(marshalTemplatejson, &dat)]: an object fills the map,
    [null] leaves it [nil] (which reads as an empty map), anything else is
    an error. *)
Definition json_Unmarshal_map (v : value) : gmap string value * option error :=
  match v with
  | VMap m => (m, None)
  | VNil => (∅, None)
  | _ => (∅, Some (ErrorString
            "json: cannot unmarshal into Go value of type map[string]interface {}"))
  end.

Definition render_error (err : ResultError) : string :=
  if bool_decide (format err = Some cpu) then
    Field err +:+ ": Format should be like " +:+ cpuPattern +:+ newline
  else if bool_decide (format err = Some memory) then
    Field err +:+ ": Format should be like " +:+ memoryPattern +:+ newline
  else String_ err +:+ newline.

Definition DeploymentTemplateValidate (templatejson : value) (schemafile : string)
    : outcome (bool * option error) :=
  if schema_exists schemafile then
    let schemajson := load_schema schemafile in
    match json_Marshal templatejson with
    | Some err => Ret (false, Some err)
    | None =>
    match gojsonschema_Validate FormatCheckers schemajson templatejson with
    | (_, Some err) => Ret (false, Some err)
    | (result, None) =>
    if Valid result then
      match json_Unmarshal_map templatejson with
      | (_, Some err) => Ret (false, Some err)
      | (dat, None) =>
      (* limits and requests are mandatory fields in schema *)
      autoscaleEnabled ← path2 dat "autoscaling" "enabled";
      (* ok && autoscaleEnabled.(bool) *)
      match autoscaleEnabled with
      | Some v => assert_bool v
      | None => Ret false
      end ≫= λ enabled : bool,
      if enabled then
        require (path3 dat "resources" "limits" "cpu") "CPU limit is required"
          (fun checkCPUlimit =>
        require (path3 dat "resources" "limits" "memory") "Memory limit is required"
          (fun checkMemorylimit =>
        require (path3 dat "resources" "requests" "cpu") "CPU requests is required"
          (fun checkCPURequests =>
        require (path3 dat "resources" "requests" "memory") "Memory requests is required"
          (fun checkMemoryRequests =>
        require (path4 dat "envoyproxy" "resources" "limits" "cpu")
          "Envoproxy CPU limit is required"
          (fun checkEnvoproxyCPUlimit =>
        require (path4 dat "envoyproxy" "resources" "limits" "memory")
          "Envoproxy Memory limit is required"
          (fun checkEnvoproxyMemorylimit =>
        require (path4 dat "envoyproxy" "resources" "requests" "cpu")
          "Envoproxy CPU requests is required"
          (fun checkEnvoproxyCPURequests =>
        require (path4 dat "envoyproxy" "resources" "requests" "memory")
          "Envoproxy memory requests is required"
          (fun checkEnvoproxyMemoryRequests =>
        '(cpu_limit, _) ← (assert_string checkCPUlimit ≫= CpuToNumber);
        '(memory_limit, _) ← (assert_string checkMemorylimit ≫= MemoryToNumber);
        '(cpu_request, _) ← (assert_string checkCPURequests ≫= CpuToNumber);
        '(memory_request, _) ← (assert_string checkMemoryRequests ≫= MemoryToNumber);
        '(envoproxy_cpu_limit, _) ← (assert_string checkEnvoproxyCPUlimit ≫= CpuToNumber);
        '(envoproxy_memory_limit, _) ←
          (assert_string checkEnvoproxyMemorylimit ≫= MemoryToNumber);
        '(envoproxy_cpu_request, _) ←
          (assert_string checkEnvoproxyCPURequests ≫= CpuToNumber);
        '(envoproxy_memory_request, _) ←
          (assert_string checkEnvoproxyMemoryRequests ≫= MemoryToNumber);
        if f64_lt envoproxy_cpu_limit envoproxy_cpu_request
           || f64_lt envoproxy_memory_limit envoproxy_memory_request
           || f64_lt cpu_limit cpu_request
           || f64_lt memory_limit memory_request
        then Ret (false, Some (ErrorString "requests is greater than limits"))
        else Ret (true, None)))))))))
      else Ret (true, None)
      end
    else
      let stringerror :=
        fold_left (fun acc err => acc +:+ render_error err) (Errors result) EmptyString in
      Ret (false, Some (ErrorString stringerror))
    end
    end
  else Ret (true, None).

(** The schema exists and the document satisfies it. *)
Definition schema_valid (templatejson : value) (schemafile : string) : Prop :=
  schema_exists schemafile = true
  ∧ json_Marshal templatejson = None
  ∧ ∃ result,
      gojsonschema_Validate FormatCheckers (load_schema schemafile) templatejson
      = (result, None)
      ∧ Valid result = true.

End Validate.

(** ** util.Autoscale *)

Definition Autoscale (dat : gmap string value) : outcome (bool * option error) :=
  require (m ← assert_map (map_index dat "resources");
           Ret (assert_map_ok (map_index m "limits")))
    "limit is required" (fun limit =>
  require (m ← assert_map (map_index dat "resources");
           Ret (assert_map_ok (map_index m "requests")))
    "Request is required" (fun request =>
  require (m ← assert_map (map_index dat "envoyproxy");
           r ← assert_map (map_index m "resources");
           Ret (assert_map_ok (map_index r "limits")))
    "envoproxyLimit is required" (fun envoproxyLimit =>
  require (m ← assert_map (map_index dat "envoyproxy");
           r ← assert_map (map_index m "resources");
           Ret (assert_map_ok (map_index r "requests")))
    "envoproxyMemory is required" (fun envoproxyMemory =>
  require (Ret (limit !! "cpu")) "CPU limit is required" (fun checkCPUlimit =>
  require (Ret (limit !! "memory")) "Memory limit is required" (fun checkMemorylimit =>
  require (Ret (request !! "cpu")) "CPU requests is required" (fun checkCPURequests =>
  require (Ret (request !! "memory")) "Memory requests is required"
    (fun checkMemoryRequests =>
  require (Ret (envoproxyLimit !! "cpu")) "Envoproxy CPU limit is required"
    (fun checkEnvoproxyCPUlimit =>
  require (Ret (envoproxyLimit !! "memory")) "Envoproxy Memory limit is required"
    (fun checkEnvoproxyMemorylimit =>
  require (Ret (envoproxyMemory !! "cpu")) "Envoproxy CPU requests is required"
    (fun checkEnvoproxyCPURequests =>
  require (Ret (envoproxyMemory !! "memory")) "Envoproxy memory requests is required"
    (fun checkEnvoproxyMemoryRequests =>
  '(cpu_limit, _) ← (assert_string checkCPUlimit ≫= CpuToNumber);
  '(memory_limit, _) ← (assert_string checkMemorylimit ≫= MemoryToNumber);
  '(cpu_request, _) ← (assert_string checkCPURequests ≫= CpuToNumber);
  '(memory_request, _) ← (assert_string checkMemoryRequests ≫= MemoryToNumber);
  '(envoproxy_cpu_limit, _) ← (assert_string checkEnvoproxyCPUlimit ≫= CpuToNumber);
  '(envoproxy_memory_limit, _) ←
    (assert_string checkEnvoproxyMemorylimit ≫= MemoryToNumber);
  '(envoproxy_cpu_request, _) ←
    (assert_string checkEnvoproxyCPURequests ≫= CpuToNumber);
  '(envoproxy_memory_request, _) ←
    (assert_string checkEnvoproxyMemoryRequests ≫= MemoryToNumber);
  if f64_lt envoproxy_cpu_limit envoproxy_cpu_request
     || f64_lt envoproxy_memory_limit envoproxy_memory_request
     || f64_lt cpu_limit cpu_request
     || f64_lt memory_limit memory_request
  then Ret (false, Some (ErrorString "requests is greater than limits"))
  else Ret (true, None))))))))))))).

(** ** What the quantity patterns capture

    The greedy reading of the two patterns, written as plain scans of the
    text; the facts below relate the matcher to them. *)

(** The next byte, if there is one, does not satisfy [p]. *)
Definition stops (p : ascii -> bool) (s : string) : Prop :=
  match s with
  | String c _ => p c = false
  | EmptyString => True
  end.

(** Digits, an [e] if one follows, digits: the text of group 1 and what
    is left. *)
Definition scan_literal (s : string) : string * string :=
  let '(d1, r1) := span is_digit s in
  let '(e, r2) :=
    match r1 with
    | String b t => if Ascii.eqb "e" b then ("e", t) else ("", r1)
    | EmptyString => ("", r1)
    end in
  let '(d2, r3) := span is_digit r2 in
  (d1 +:+ e +:+ d2, r3).

(** An [m] if one follows. *)
Definition scan_cpu_suffix (s : string) : string * string :=
  match s with
  | String b t => if Ascii.eqb "m" b then ("m", t) else ("", s)
  | EmptyString => ("", s)
  end.

Definition unit_letters : string := "EPTGMK".

(** A unit letter with an [i] if one follows, or the end of the text;
    nothing else. *)
Definition scan_memory_suffix (s : string) : option (string * string) :=
  match s with
  | String b t =>
      if strings.mem b unit_letters then
        match t with
        | String b' t' =>
            if Ascii.eqb "i" b' then Some (String b "i", t') else Some (String b "", t)
        | EmptyString => Some (String b "", t)
        end
      else None
  | EmptyString => Some ("", "")
  end.

(** The suffixes group 2 of the memory pattern can capture. *)
Definition memory_suffixes : list string :=
  [""; "E"; "Ei"; "P"; "Pi"; "T"; "Ti"; "G"; "Gi"; "M"; "Mi"; "K"; "Ki"].

(** The numeric literals of the quantity grammar: digits, or digits, [e],
    digits. *)
Definition is_literal (lit : string) : Prop :=
  all_bytes is_digit lit = true
  ∨ ∃ d1 d2, lit = d1 +:+ "e" +:+ d2
      ∧ all_bytes is_digit d1 = true ∧ all_bytes is_digit d2 = true.

(** The result of [convertResource] once the groups of [matches[0]] are
    known. *)
Definition scale (rp : resourceParser) (resource lit unit : string)
    : float64 * option error :=
  match ParseFloat lit with
  | (_, Some err) => (f64_zero, Some err)
  | (num, None) =>
      if is_empty unit then (num, None)
      else match conversions rp !! unit with
           | Some suffix => (f64_mul num suffix, None)
           | None => (f64_zero, Some (pattern_error rp resource))
           end
  end.

(** The six unit letters and the power they stand for. *)
Definition unit_rank (c : ascii) : option Z :=
  if Ascii.eqb c "K" then Some 1%Z
  else if Ascii.eqb c "M" then Some 2%Z
  else if Ascii.eqb c "G" then Some 3%Z
  else if Ascii.eqb c "T" then Some 4%Z
  else if Ascii.eqb c "P" then Some 5%Z
  else if Ascii.eqb c "E" then Some 6%Z
  else None.

(** The multiplier a memory suffix stands for: a power of 1000 for a bare
    letter, a power of 1024 for a letter followed by [i], none without a
    suffix. *)
Definition unit_multiplier (u : string) : option Z :=
  match u with
  | String c EmptyString => (λ n, 1000 ^ n)%Z <$> unit_rank c
  | String c (String i EmptyString) =>
      if Ascii.eqb i "i" then (λ n, 1024 ^ n)%Z <$> unit_rank c else None
  | _ => None
  end.

(** [x] is the integer [n], without rounding. *)
Definition f64_exact (x : float64) (n : Z) : bool :=
  match x with
  | S754_finite false m e =>
      if (0 <=? e)%Z then (Z.pos m * 2 ^ e =? n)%Z else (Z.pos m =? n * 2 ^ (- e))%Z
  | S754_zero _ => (n =? 0)%Z
  | _ => false
  end.

(** ** What the format patterns accept

    The two grammars written without the patterns and their classes: the
    bytes are listed one by one. *)

Definition decimal_digits : list ascii :=
  ["0"; "1"; "2"; "3"; "4"; "5"; "6"; "7"; "8"; "9"]%char.

Definition decimal_digit (c : ascii) : bool := bool_decide (c ∈ decimal_digits).

Definition digit_or_point (c : ascii) : bool := decimal_digit c || Ascii.eqb c ".".

(** One or more digits or points and an [m], or one or more digits or
    points. *)
Definition cpu_format (s : string) : Prop :=
  (∃ d, s = d +:+ "m" ∧ d ≠ "" ∧ all_bytes digit_or_point d = true)
  ∨ (s ≠ "" ∧ all_bytes digit_or_point s = true).

(** One or more digits and one of [Ki], [Mi], [Gi], [Ti], [Pi]. *)
Definition memory_format (s : string) : Prop :=
  ∃ d u, s = d +:+ u ∧ d ≠ "" ∧ all_bytes decimal_digit d = true
         ∧ u ∈ ["Ki"; "Mi"; "Gi"; "Ti"; "Pi"].

(** ** Reading a document *)

(** The value at a path of keys, if every step exists. *)
Fixpoint lookup_path (v : value) (keys : list string) : option value :=
  match keys with
  | [] => Some v
  | k :: ks =>
      match v with
      | VMap m => m !! k ≫= λ v', lookup_path v' ks
      | _ => None
      end
  end.

(** [v, ok := dat[k1].(map[string]interface{}) ... [kn]], as the code reads
    it: a step that is not a map panics, only the last key may be absent. *)
Fixpoint path_get (m : gmap string value) (keys : list string) : outcome (option value) :=
  match keys with
  | [] => Ret None
  | [k] => Ret (m !! k)
  | k :: ks => m' ← assert_map (map_index m k); path_get m' ks
  end.

(** The eight resource strings in the order they are checked, each with
    the message of its absence. *)
Definition required_fields : list (list string * string) :=
  [ (["resources"; "limits"; "cpu"], "CPU limit is required");
    (["resources"; "limits"; "memory"], "Memory limit is required");
    (["resources"; "requests"; "cpu"], "CPU requests is required");
    (["resources"; "requests"; "memory"], "Memory requests is required");
    (["envoyproxy"; "resources"; "limits"; "cpu"], "Envoproxy CPU limit is required");
    (["envoyproxy"; "resources"; "limits"; "memory"], "Envoproxy Memory limit is required");
    (["envoyproxy"; "resources"; "requests"; "cpu"], "Envoproxy CPU requests is required");
    (["envoyproxy"; "resources"; "requests"; "memory"],
       "Envoproxy memory requests is required") ].

(** The message of the first field that is absent, reading the fields in
    order and no further than that one. *)
Fixpoint first_absent (dat : gmap string value) (fields : list (list string * string))
    : outcome (option string) :=
  match fields with
  | [] => Ret None
  | (keys, msg) :: rest =>
      o ← path_get dat keys;
      match o with
      | None => Ret (Some msg)
      | Some _ => first_absent dat rest
      end
  end.

(** The four maps that hold the eight fields are there. *)
Definition blocks_present (dat : gmap string value) : Prop :=
  ∃ lim req elim ereq,
    lookup_path (VMap dat) ["resources"; "limits"] = Some (VMap lim)
    ∧ lookup_path (VMap dat) ["resources"; "requests"] = Some (VMap req)
    ∧ lookup_path (VMap dat) ["envoyproxy"; "resources"; "limits"] = Some (VMap elim)
    ∧ lookup_path (VMap dat) ["envoyproxy"; "resources"; "requests"] = Some (VMap ereq).

(** [x, _ := f(...)] *)
Definition value_of (o : outcome (float64 * option error)) : float64 :=
  match o with
  | Ret (x, _) => x
  | Panic _ => f64_zero
  end.

(** The eight raw strings of a document: limit and request, cpu and
    memory, for the primary container and for the sidecar. *)
Record resource_strings := {
  cpu_limit : string; memory_limit : string;
  cpu_request : string; memory_request : string;
  envoy_cpu_limit : string; envoy_memory_limit : string;
  envoy_cpu_request : string; envoy_memory_request : string
}.

Definition has_strings (dat : gmap string value) (r : resource_strings) : Prop :=
  lookup_path (VMap dat) ["resources"; "limits"; "cpu"] = Some (VString (cpu_limit r))
  ∧ lookup_path (VMap dat) ["resources"; "limits"; "memory"]
    = Some (VString (memory_limit r))
  ∧ lookup_path (VMap dat) ["resources"; "requests"; "cpu"]
    = Some (VString (cpu_request r))
  ∧ lookup_path (VMap dat) ["resources"; "requests"; "memory"]
    = Some (VString (memory_request r))
  ∧ lookup_path (VMap dat) ["envoyproxy"; "resources"; "limits"; "cpu"]
    = Some (VString (envoy_cpu_limit r))
  ∧ lookup_path (VMap dat) ["envoyproxy"; "resources"; "limits"; "memory"]
    = Some (VString (envoy_memory_limit r))
  ∧ lookup_path (VMap dat) ["envoyproxy"; "resources"; "requests"; "cpu"]
    = Some (VString (envoy_cpu_request r))
  ∧ lookup_path (VMap dat) ["envoyproxy"; "resources"; "requests"; "memory"]
    = Some (VString (envoy_memory_request r)).

(** One of the four comparisons has the limit strictly below the request. *)
Definition violated (r : resource_strings) : bool :=
  f64_lt (value_of (CpuToNumber (envoy_cpu_limit r)))
         (value_of (CpuToNumber (envoy_cpu_request r)))
  || f64_lt (value_of (MemoryToNumber (envoy_memory_limit r)))
            (value_of (MemoryToNumber (envoy_memory_request r)))
  || f64_lt (value_of (CpuToNumber (cpu_limit r)))
            (value_of (CpuToNumber (cpu_request r)))
  || f64_lt (value_of (MemoryToNumber (memory_limit r)))
            (value_of (MemoryToNumber (memory_request r))).

(** ** Example environments and documents *)

Definition valid_result : Result := {| Valid := true; Errors := [] |}.

(** A schema that accepts every document. *)
Definition accept_all (_ : list (string * (value -> bool))) (_ _ : value)
    : Result * option error := (valid_result, None).

(** An engine that cannot read its schema. *)
Definition broken_engine (_ : list (string * (value -> bool))) (_ _ : value)
    : Result * option error :=
  (valid_result, Some (ErrorString "schema is invalid")).

Definition block (cpu_s memory_s : option string) : value :=
  VMap (list_to_map
          (omap (λ kv, (λ s, (kv.1, VString s)) <$> kv.2)
                [("cpu", cpu_s); ("memory", memory_s)])).

Definition resources (lc lm rc rm : option string) : value :=
  VMap (list_to_map [("limits", block lc lm); ("requests", block rc rm)]).

(** A document with both resource blocks and the autoscaling flag. *)
Definition document_map (enabled : bool) (primary sidecar : value) : gmap string value :=
  list_to_map
    [("autoscaling", VMap (list_to_map [("enabled", VBool enabled)]));
     ("resources", primary);
     ("envoyproxy", VMap (list_to_map [("resources", sidecar)]))].

(** Autoscaling is on, and there is nothing else. *)
Definition only_autoscaling : gmap string value :=
  list_to_map [("autoscaling", VMap (list_to_map [("enabled", VBool true)]))].

(** The primary cpu limit is absent from its map, and the sidecar has no
    [requests] map. *)
Definition no_sidecar_requests : gmap string value :=
  list_to_map
    [("resources",
      VMap (list_to_map [("limits", block None (Some "1Gi"));
                         ("requests", block (Some "1") (Some "1Gi"))]));
     ("envoyproxy",
      VMap (list_to_map
              [("resources",
                VMap (list_to_map [("limits", block (Some "1") (Some "1Gi"))]))]))].

Definition any_file : string -> bool := λ _, true.
Definition no_schema : string -> value := λ _, VNil.
Definition marshals : value -> option error := λ _, None.

(** ** util: the small helpers of [helper.go] *)

Fixpoint ContainsString_loop (list : list string) (element : string) : bool :=
  match list with
  | l :: rest => if String.eqb l element then true else ContainsString_loop rest element
  | [] => false
  end.

Definition ContainsString (list : list string) (element : string) : bool :=
  if (length list =? 0)%nat then false
  else ContainsString_loop list element.

(** [strings.Join(elems, sep)] *)
Fixpoint strings_Join (elems : list string) (sep : string) : string :=
  match elems with
  | [] => EmptyString
  | [e] => e
  | e :: rest => e +:+ sep +:+ strings_Join rest sep
  end.

Section Errors.

(** Any implementation of Go's [error] interface, with its [Error()]
    method; a [nil] error is [None]. *)
Variable err_type : Type.
Variable Error : err_type -> string.
(** [fmt.Sprintf(format)] without operands, as [fmt.Errorf] applies it to
    its first argument. *)
Variable Sprintf : string -> string.

Definition AppendErrorString (errs : list string) (err : option err_type) : list string :=
  match err with
  | Some e => errs ++ [Error e]
  | None => errs
  end.

(** The message of the error returned, if one is. *)
Definition GetErrorOrNil (errs : list string) : option string :=
  if (0 <? length errs)%nat then Some (Sprintf (strings_Join errs newline))
  else None.

End Errors.

(** [strings.Split(s, sep)] for a separator of one byte: the texts between
    the separators, one more than there are separators. *)
Fixpoint strings_Split (s : string) (sep : ascii) : list string :=
  match s with
  | String c s' =>
      if Ascii.eqb c sep then EmptyString :: strings_Split s' sep
      else match strings_Split s' sep with
           | h :: t => String c h :: t
           | [] => [String c EmptyString]
           end
  | EmptyString => [EmptyString]
  end.

(** [strconv.Atoi(s)]: [ParseInt(s, 10, 0)] on a 64-bit platform, the
    error naming [Atoi]. *)
Definition Atoi (s : string) : Z * option error :=
  match strconv.ParseInt s with
  | (n, Some (NumError _ num err)) => (n, Some (NumError "Atoi" num err))
  | r => r
  end.

Definition ExtractChartVersion (chartVersion : string) : outcome (Z * Z * option error) :=
  if is_empty chartVersion then Ret (0%Z, 0%Z, None)
  else
    let chartVersions := strings_Split chartVersion "." in
    v0 ← index chartVersions 0;
    match Atoi v0 with
    | (_, Some err) => Ret (0%Z, 0%Z, Some err)
    | (chartMajorVersion, None) =>
        v1 ← index chartVersions 1;
        match Atoi v1 with
        | (_, Some err) => Ret (0%Z, 0%Z, Some err)
        | (chartMinorVersion, None) => Ret (chartMajorVersion, chartMinorVersion, None)
        end
    end.

(** [var chars = []rune("abcdefghijklmnopqrstuvwxyz0123456789")] *)
Definition chars : list ascii :=
  list_ascii_of_string "abcdefghijklmnopqrstuvwxyz0123456789".

Section Generate.

(** The state of the package [math/rand], and one call of [rand.Intn]. *)
Variable rng : Type.
Variable Intn : rng -> Z -> Z * rng.

(** The loop of [Generate]: [n] rounds, each appending one rune of
    [chars]; the index panics when out of range. *)
Fixpoint Generate_loop (n : nat) (st : rng) (b : string) : outcome string :=
  match n with
  | O => Ret b
  | S n' =>
      let '(i, st') := Intn st (Z.of_nat (length chars)) in
      c ← (if (i <? 0)%Z then Panic "index out of range" else index chars (Z.to_nat i));
      Generate_loop n' st' (b +:+ String c EmptyString)
  end.

(** [st] is the state left by [rand.Seed(time.Now().UnixNano())]. *)
Definition Generate (st : rng) (size : Z) : outcome string :=
  Generate_loop (Z.to_nat size) st EmptyString.

End Generate.

(** ** Readings used by the further facts *)

(** No byte of the text is [c]. *)
Definition without (c : ascii) (s : string) : bool :=
  all_bytes (λ b, negb (Ascii.eqb b c)) s.

(** [s] occurs in [t]. *)
Definition occurs_in (s t : string) : Prop :=
  ∃ pre post, t = pre +:+ s +:+ post.

(** A float64 that is zero, positive or [+Inf]: not negative, not a NaN. *)
Definition f64_nonneg (x : float64) : bool :=
  match x with
  | S754_zero false | S754_infinity false | S754_finite false _ _ => true
  | _ => false
  end.

(** Go's [<=] on float64. *)
Definition f64_le : float64 -> float64 -> bool := SFleb.

(** The eight values of a document, whatever their types. *)
Record resource_values := {
  v_cpu_limit : value; v_memory_limit : value;
  v_cpu_request : value; v_memory_request : value;
  v_envoy_cpu_limit : value; v_envoy_memory_limit : value;
  v_envoy_cpu_request : value; v_envoy_memory_request : value
}.

Definition has_values (dat : gmap string value) (r : resource_values) : Prop :=
  lookup_path (VMap dat) ["resources"; "limits"; "cpu"] = Some (v_cpu_limit r)
  ∧ lookup_path (VMap dat) ["resources"; "limits"; "memory"] = Some (v_memory_limit r)
  ∧ lookup_path (VMap dat) ["resources"; "requests"; "cpu"] = Some (v_cpu_request r)
  ∧ lookup_path (VMap dat) ["resources"; "requests"; "memory"]
    = Some (v_memory_request r)
  ∧ lookup_path (VMap dat) ["envoyproxy"; "resources"; "limits"; "cpu"]
    = Some (v_envoy_cpu_limit r)
  ∧ lookup_path (VMap dat) ["envoyproxy"; "resources"; "limits"; "memory"]
    = Some (v_envoy_memory_limit r)
  ∧ lookup_path (VMap dat) ["envoyproxy"; "resources"; "requests"; "cpu"]
    = Some (v_envoy_cpu_request r)
  ∧ lookup_path (VMap dat) ["envoyproxy"; "resources"; "requests"; "memory"]
    = Some (v_envoy_memory_request r).

Definition is_string (v : value) : bool :=
  match v with VString _ => true | _ => false end.

Definition all_strings (r : resource_values) : bool :=
  is_string (v_cpu_limit r) && is_string (v_memory_limit r)
  && is_string (v_cpu_request r) && is_string (v_memory_request r)
  && is_string (v_envoy_cpu_limit r) && is_string (v_envoy_memory_limit r)
  && is_string (v_envoy_cpu_request r) && is_string (v_envoy_memory_request r).

(** The text cannot continue a numeric literal: it is empty, or starts
    with a byte that is neither a digit nor [e]. *)
Definition ends_literal (rest : string) : bool :=
  match rest with
  | String c _ => negb (is_digit c) && negb (Ascii.eqb "e" c)
  | EmptyString => true
  end.

Definition starts_with (c : ascii) (s : string) : bool :=
  match s with
  | String b _ => Ascii.eqb c b
  | EmptyString => false
  end.

(** [.001], the multiplier of the suffix [m]. *)
Definition milli : float64 := f64_of_decimal false 1 (-3).

(** The binary64 nearest to the number a run of digits writes, as
    [strconv.ParseFloat] returns it: with [ErrRange] when it is infinite. *)
Definition digits_float (d : string) : float64 * option error :=
  let v := f64_of_decimal false (digits_value 0 d) 0 in
  if f64_is_inf v then (v, Some (NumError "ParseFloat" d ErrRange)) else (v, None).

(** The texts of a list, one after the other. *)
Definition concat_strings (l : list string) : string := foldr String.append EmptyString l.

Definition is_map (v : value) : bool :=
  match v with VMap _ => true | _ => false end.

(** The four maps [Autoscale] asks for, in the order it asks, each with
    the message of its absence. *)
Definition required_blocks (res eres : gmap string value) : list (value * string) :=
  [ (map_index res "limits", "limit is required");
    (map_index res "requests", "Request is required");
    (map_index eres "limits", "envoproxyLimit is required");
    (map_index eres "requests", "envoproxyMemory is required") ].

(** The message of the first value that is not a map. *)
Fixpoint first_not_map (l : list (value * string)) : option string :=
  match l with
  | (v, msg) :: rest => if is_map v then first_not_map rest else Some msg
  | [] => None
  end.

(** ** Further example environments and documents *)

Definition cpu_error : ResultError :=
  {| Field := "resources.limits.cpu"; format := Some "cpu";
     String_ := "resources.limits.cpu: Does not match format 'cpu'" |}.

Definition required_error : ResultError :=
  {| Field := "(root)"; format := None; String_ := "(root): image is required" |}.

(** An engine whose schema rejects the document with two errors. *)
Definition rejecting_engine (_ : list (string * (value -> bool))) (_ _ : value)
    : Result * option error :=
  ({| Valid := false; Errors := [cpu_error; required_error] |}, None).

(** All eight fields are there, the primary cpu limit as the number 1. *)
Definition numeric_cpu_limit : gmap string value :=
  document_map true
    (VMap (list_to_map
             [("limits", VMap (list_to_map [("cpu", VNumber (f64_of_Z 1));
                                            ("memory", VString "1Gi")]));
              ("requests", block (Some "1") (Some "1Gi"))]))
    (resources (Some "1") (Some "1Gi") (Some "1") (Some "1Gi")).

(** The primary container has requests but no limits. *)
Definition no_limits : gmap string value :=
  document_map true
    (VMap (list_to_map [("requests", block (Some "1") (Some "1Gi"))]))
    (resources (Some "1") (Some "1Gi") (Some "1") (Some "1Gi")).

(** [x] is positive: a finite positive number or [+Inf]. *)
Definition f64_positive (x : float64) : bool :=
  match x with
  | S754_infinity false | S754_finite false _ _ => true
  | _ => false
  end.

(** Every request is at most its limit. *)
Definition within_limits (r : resource_strings) : bool :=
  f64_le (value_of (CpuToNumber (envoy_cpu_request r)))
         (value_of (CpuToNumber (envoy_cpu_limit r)))
  && f64_le (value_of (MemoryToNumber (envoy_memory_request r)))
            (value_of (MemoryToNumber (envoy_memory_limit r)))
  && f64_le (value_of (CpuToNumber (cpu_request r)))
            (value_of (CpuToNumber (cpu_limit r)))
  && f64_le (value_of (MemoryToNumber (memory_request r)))
            (value_of (MemoryToNumber (memory_limit r))).

(** The text is empty or starts with a digit or an [e]. *)
Definition plain (s : string) : bool :=
  match s with
  | String c _ => is_digit c || Ascii.eqb c "e"
  | EmptyString => true
  end.

(** The pattern has no [^]: a match does not depend on where it starts. *)
Fixpoint unanchored (r : regexp.Regexp) : bool :=
  match r with
  | regexp.BeginText => false
  | regexp.Opt r1 | regexp.Group _ r1 => unanchored r1
  | regexp.Cat r1 r2 | regexp.Alt r1 r2 => unanchored r1 && unanchored r2
  | _ => true
  end.

(** Both searches fail, or both find a match with the same text and the
    same groups. *)
Definition same_match (a b : option regexp.match_result) : Prop :=
  match a, b with
  | Some x, Some y =>
      regexp.m_text x = regexp.m_text y ∧ regexp.m_caps x = regexp.m_caps y
  | None, None => True
  | _, _ => False
  end.

(** A byte at which a match of the memory pattern can start: a digit, an
    [e] or a unit letter. *)
Definition starts_quantity (c : ascii) : bool :=
  is_digit c || Ascii.eqb c "e" || strings.mem c unit_letters.

(** ** Loading the schema file

    What [DeploymentTemplateValidate] does between [os.Stat] and the
    call of the engine. *)

(** [fmt.Sprintf("schema/%s.json", schemafile)] *)
Definition schema_path (schemafile : string) : string :=
  "schema/" +:+ schemafile +:+ ".json".

Section ReadSchema.

(** An open file; on an error [os.Open] returns the nil file, [None]. *)
Variable File : Type.
Variable os_Open : string -> option File * option error.
Variable ioutil_ReadAll : option File -> string * option error.
(** [json.Unmarshal(data, &schemajson)] on the nil map [schemajson]: the
    value of [schemajson] after the call, [VNil] while it is still nil,
    and the error. *)
Variable json_Unmarshal : string -> value * option error.

(** [schemajson], as it is handed to [gojsonschema.NewGoLoader]. *)
Definition read_schema (schemafile : string) : value :=
  let '(jsonFile, err) := os_Open (schema_path schemafile) in
  (* if err != nil { sugaredLogger.Errorw("scheme file error", err) } *)
  let '(byteValueJsonFile, _) := ioutil_ReadAll jsonFile in
  let '(schemajson, _) := json_Unmarshal byteValueJsonFile in
  schemajson.

End ReadSchema.

(** A schema file that is there and cannot be opened. *)
Definition open_denied (name : string) : option unit * option error :=
  (None, Some (ErrorString ("open " +:+ name +:+ ": permission denied"))).

(** Reading the nil file gives no bytes and an error. *)
Definition read_nil_file (f : option unit) : string * option error :=
  match f with
  | Some _ => ("{}", None)
  | None => ("", Some (ErrorString "invalid argument"))
  end.

(** Decoding no bytes leaves the map nil. *)
Definition decode_object (data : string) : value * option error :=
  if is_empty data then (VNil, Some (ErrorString "unexpected end of JSON input"))
  else (VMap ∅, None).

(** An engine that reports a nil schema and accepts under any other. *)
Definition needs_schema (_ : list (string * (value -> bool))) (schema _ : value)
    : Result * option error :=
  match schema with
  | VNil => ({| Valid := false; Errors := [] |}, Some (ErrorString "schema is invalid"))
  | _ => (valid_result, None)
  end.

(** A document with autoscaling on, the cpu limit and request of the
    primary container as given, and every other pair equal. *)
Definition cpu_document (limit request : string) : gmap string value :=
  document_map true
    (resources (Some limit) (Some "1Gi") (Some request) (Some "1Gi"))
    (resources (Some "50m") (Some "100Mi") (Some "50m") (Some "100Mi")).

(** * Facts *)

(** ** Text *)

#[local] Arguments String.append !_ _ / : simpl nomatch.
#[local] Arguments Ascii.eqb !_ !_ / : simpl nomatch.
#[local] Arguments in_class : simpl never.

Lemma append_empty_r (s : string) : s +:+ "" = s.
Proof. induction s as [|a s IH]; simpl; [done | by rewrite IH]. Qed.

Lemma append_assoc (a b c : string) : (a +:+ b) +:+ c = a +:+ (b +:+ c).
Proof. induction a as [|x a IH]; simpl; [done | by rewrite IH]. Qed.

Lemma span_spec (p : ascii -> bool) (s : string) :
  s = (span p s).1 +:+ (span p s).2
  ∧ all_bytes p (span p s).1 = true
  ∧ stops p (span p s).2.
Proof.
  induction s as [|a s (IH1 & IH2 & IH3)]; simpl; [done|].
  destruct (p a) eqn:Ha; simpl; [|done].
  destruct (span p s) as [m r]; simpl in *.
  rewrite Ha. by rewrite <- IH1.
Qed.

Lemma span_append (p : ascii -> bool) (d rest : string) :
  all_bytes p d = true → stops p rest → span p (d +:+ rest) = (d, rest).
Proof.
  intros Hd Hr. induction d as [|a d IH]; simpl in *.
  - destruct rest as [|c rest]; simpl in *; [done | by rewrite Hr].
  - apply andb_prop in Hd as [-> Hd]. by rewrite (IH Hd).
Qed.

Lemma all_bytes_append (p : ascii -> bool) (a b : string) :
  all_bytes p (a +:+ b) = all_bytes p a && all_bytes p b.
Proof. induction a as [|x a IH]; simpl; [done | by rewrite IH, andb_assoc]. Qed.

(** ** The matcher *)

Section MatcherFacts.
Import regexp.
Context {R : Type}.
Implicit Types (k : string -> nat -> string -> option R).

(** Whatever [star] returns was returned by its continuation on a split of
    the text whose first part is in the class. *)
Lemma star_sound cls s pos k r :
  star cls s pos k = Some r →
  ∃ m s' p, s = m +:+ s' ∧ all_bytes (in_class cls) m = true ∧ k m p s' = Some r.
Proof.
  revert pos k. induction s as [|a s IH]; intros pos k; simpl.
  - intros H. by exists "", "", pos.
  - destruct (in_class cls a) eqn:Ha.
    + destruct (star cls s (S pos) _) eqn:Hs.
      * intros [= <-]. apply IH in Hs as (m & s' & p & -> & Hm & Hk).
        exists (String a m), s', p. simpl. by rewrite Ha.
      * intros Hk. by exists "", (String a s), pos.
    + intros Hk. by exists "", (String a s), pos.
Qed.

(** The longest prefix is tried first: when the continuation accepts it,
    that is the result. *)
Lemma star_greedy (P : R -> Prop) cls s k :
  (∀ p, ∃ r, k (span (in_class cls) s).1 p (span (in_class cls) s).2 = Some r ∧ P r) →
  ∀ pos, ∃ r, star cls s pos k = Some r ∧ P r.
Proof.
  revert k. induction s as [|a s IH]; intros k Hk pos; simpl in *.
  - apply Hk.
  - destruct (in_class cls a) eqn:Ha; [|apply Hk].
    destruct (span (in_class cls) s) as [m r'] eqn:Hsp; simpl in *.
    destruct (IH (fun m => k (String a m)) Hk (S pos)) as (r & -> & Hr).
    by exists r.
Qed.

End MatcherFacts.

Section SearchFacts.
Import regexp.

Lemma search_hit re s pos m : match_at re s pos = Some m → search re s pos = Some m.
Proof. intros H. destruct s; simpl; by rewrite H. Qed.

Lemma search_sound re s pos m :
  search re s pos = Some m →
  ∃ pre suf, s = pre +:+ suf ∧ match_at re suf (pos + String.length pre) = Some m.
Proof.
  revert pos. induction s as [|a s IH]; intros pos; simpl.
  - destruct (match_at re "" pos) eqn:H; [|done].
    intros [= <-]. exists "", "". by rewrite Nat.add_0_r.
  - destruct (match_at re (String a s) pos) eqn:H.
    + intros [= <-]. exists "", (String a s). by rewrite Nat.add_0_r.
    + intros (pre & suf & -> & Hm)%IH. exists (String a pre), suf.
      split; [done|]. simpl. by rewrite <- Nat.add_succ_comm.
Qed.

(** [matches[0]] is the leftmost match. *)
Lemma FindAllStringSubmatch_head re s m :
  search re s 0 = Some m →
  ∃ later, FindAllStringSubmatch re s = submatches re m :: later.
Proof.
  intros H. unfold FindAllStringSubmatch. simpl. rewrite H.
  destruct (m_end m =? 0)%nat; simpl; eauto.
Qed.

Lemma FindAllStringSubmatch_none re s :
  search re s 0 = None → FindAllStringSubmatch re s = [].
Proof. intros H. unfold FindAllStringSubmatch. simpl. by rewrite H. Qed.

End SearchFacts.

(** ** The quantity patterns *)

#[local] Arguments regexp.star : simpl never.

Section PatternFacts.
Import regexp.
Context {R : Type}.
Implicit Types (k : string -> nat -> string -> caps -> option R).

Lemma literal_greedy (P : R -> Prop) s c k :
  (∀ p, ∃ r, k (scan_literal s).1 p (scan_literal s).2 ((1, (scan_literal s).1) :: c) = Some r
             ∧ P r) →
  ∀ pos, ∃ r, mtch literal_re s pos c k = Some r ∧ P r.
Proof.
  unfold scan_literal, is_digit. intros Hk pos. simpl.
  apply star_greedy. intros p.
  destruct (span (in_class cls_digit) s) as [d1 r1]. cbn [fst snd].
  destruct r1 as [|b t].
  - apply star_greedy. intros p'. apply Hk.
  - destruct (Ascii.eqb "e" b) eqn:Hb.
    + apply Ascii.eqb_eq in Hb as <-.
      edestruct (star_greedy P cls_digit t) as (r & Hr & HP); [|rewrite Hr; eauto].
      intros p'. specialize (Hk p').
      by destruct (span (in_class cls_digit) t) as [d2 r3].
    + apply star_greedy. intros p'. specialize (Hk p').
      by destruct (span (in_class cls_digit) (String b t)) as [d2 r3].
Qed.

Lemma literal_sound s pos c k r :
  mtch literal_re s pos c k = Some r →
  ∃ lit s' p, s = lit +:+ s' ∧ is_literal lit ∧ k lit p s' ((1, lit) :: c) = Some r.
Proof.
  simpl. intros (d1 & s1 & p1 & -> & Hd1 & H)%star_sound.
  assert (∀ p, star cls_digit s1 p
            (λ m p0 s', k (d1 +:+ "" +:+ m) p0 s' ((1, d1 +:+ "" +:+ m) :: c)) = Some r →
          ∃ lit s' p, d1 +:+ s1 = lit +:+ s' ∧ is_literal lit
                      ∧ k lit p s' ((1, lit) :: c) = Some r) as Hplain.
  { intros p (d2 & s2 & p2 & -> & Hd2 & Hk)%star_sound. simpl in Hk.
    exists (d1 +:+ d2), s2, p2. rewrite append_assoc. split; [done|]. split; [|done].
    left. unfold is_digit. by rewrite all_bytes_append, Hd1, Hd2. }
  destruct s1 as [|b t]; [by eapply Hplain|].
  destruct (Ascii.eqb "e" b) eqn:Hb; [|by eapply Hplain].
  apply Ascii.eqb_eq in Hb as <-.
  destruct (star cls_digit t _ _) eqn:Hs; [|by eapply Hplain].
  injection H as ->.
  apply star_sound in Hs as (d2 & s2 & p2 & -> & Hd2 & Hk). simpl in Hk.
  exists (d1 +:+ "e" +:+ d2), s2, p2. split.
  - by rewrite !append_assoc.
  - split; [|done]. right. by exists d1, d2.
Qed.

Lemma cpu_suffix_eval s pos c k :
  (∀ m p s' c', is_Some (k m p s' c')) →
  ∃ p, mtch cpu_suffix_re s pos c k
       = k (scan_cpu_suffix s).1 p (scan_cpu_suffix s).2 ((2, (scan_cpu_suffix s).1) :: c).
Proof.
  intros Hk. unfold scan_cpu_suffix. simpl. destruct s as [|b t]; [by exists pos|].
  destruct (Ascii.eqb "m" b) eqn:Hb; [|by exists pos].
  apply Ascii.eqb_eq in Hb as <-. simpl. exists (S pos).
  by destruct (Hk "m" (S pos) t ((2, "m") :: c)) as [r ->].
Qed.

Lemma unit_letter_cases b :
  strings.mem b unit_letters = true →
  b = "E"%char ∨ b = "P"%char ∨ b = "T"%char ∨ b = "G"%char ∨ b = "M"%char ∨ b = "K"%char.
Proof.
  unfold unit_letters. simpl. intros H.
  repeat (apply orb_true_iff in H as [H|H]; [apply Ascii.eqb_eq in H; auto 10|]).
  done.
Qed.

Lemma memory_suffix_greedy s u s' pos c k :
  scan_memory_suffix s = Some (u, s') →
  (∀ m p s' c', is_Some (k m p s' c')) →
  ∃ p, mtch memory_suffix_re s pos c k = k u p s' ((2, u) :: c).
Proof.
  intros Hs Hk. unfold scan_memory_suffix in Hs. destruct s as [|b t].
  { injection Hs as <- <-. exists pos. by simpl. }
  destruct (strings.mem b unit_letters) eqn:Hb; [|done].
  destruct t as [|b' t'].
  - injection Hs as <- <-.
    apply unit_letter_cases in Hb as [->|[->|[->|[->|[->| ->]]]]];
      exists (S pos); simpl;
      match goal with
      | |- context [k ?a ?b ?c ?d] => by destruct (Hk a b c d) as [r ->]
      end.
  - destruct (Ascii.eqb "i" b') eqn:Hi.
    + injection Hs as <- <-. apply Ascii.eqb_eq in Hi as <-.
      apply unit_letter_cases in Hb as [->|[->|[->|[->|[->| ->]]]]];
        exists (S (S pos)); simpl;
        match goal with
        | |- context [k ?a ?b ?c ?d] => by destruct (Hk a b c d) as [r ->]
        end.
    + injection Hs as <- <-.
      apply unit_letter_cases in Hb as [->|[->|[->|[->|[->| ->]]]]];
        exists (S pos); simpl; rewrite Hi;
        match goal with
        | |- context [k ?a ?b ?c ?d] => by destruct (Hk a b c d) as [r ->]
        end.
Qed.

Lemma unit_sound x s pos c k r :
  mtch (unit_re x) s pos c k = Some r →
  ∃ u s' p, s = u +:+ s' ∧ (u = String x "" ∨ u = String x "i") ∧ k u p s' c = Some r.
Proof.
  simpl. destruct s as [|b t]; [done|].
  destruct (Ascii.eqb x b) eqn:Hb; [|done]. apply Ascii.eqb_eq in Hb as <-.
  destruct t as [|b' t']; simpl.
  - intros H. exists (String x ""), "", (S pos). auto.
  - destruct (Ascii.eqb "i" b') eqn:Hi.
    + apply Ascii.eqb_eq in Hi as <-.
      destruct (k (String x "i") _ _ _) eqn:Hk.
      * intros [= <-]. exists (String x "i"), t', (S (S pos)). auto.
      * intros H. exists (String x ""), (String "i" t'), (S pos). auto.
    + intros H. exists (String x ""), (String b' t'), (S pos). auto.
Qed.

Lemma alt_sound r1 r2 s pos c k r :
  mtch (Alt r1 r2) s pos c k = Some r →
  mtch r1 s pos c k = Some r ∨ mtch r2 s pos c k = Some r.
Proof. simpl. destruct (mtch r1 s pos c k); auto. Qed.

Lemma group_unfold i r1 s pos c k :
  mtch (Group i r1) s pos c k = mtch r1 s pos c (λ m p s' c', k m p s' ((i, m) :: c')).
Proof. done. Qed.

Lemma memory_suffix_sound s pos c k r :
  mtch memory_suffix_re s pos c k = Some r →
  ∃ u s' p, s = u +:+ s' ∧ u ∈ memory_suffixes ∧ k u p s' ((2, u) :: c) = Some r.
Proof.
  unfold memory_suffix_re. rewrite group_unfold. intros H.
  repeat (apply alt_sound in H as [H|H];
    [ apply unit_sound in H as (u & s' & p & -> & [-> | ->] & Hk);
      eexists _, s', p; (split; [done|]); (split; [|exact Hk]);
      unfold memory_suffixes; rewrite !elem_of_cons; auto 20
    | ]).
  simpl in H. destruct s; [|done]. exists "", "", pos.
  split; [done|]. split; [|exact H]. unfold memory_suffixes. rewrite !elem_of_cons. auto.
Qed.

End PatternFacts.

(** ** Quantities *)

Section QuantityFacts.
Import regexp.

Lemma cat_unfold {R} r1 r2 s pos c (k : string -> nat -> string -> caps -> option R) :
  mtch (Cat r1 r2) s pos c k
  = mtch r1 s pos c (λ m1 p1 s1 c1,
      mtch r2 s1 p1 c1 (λ m2 p2 s2 c2, k (m1 +:+ m2) p2 s2 c2)).
Proof. done. Qed.

(** The cpu pattern matches at every position, and captures the greedy
    scan of the text. *)
Lemma cpu_match_at s pos :
  let lit := (scan_literal s).1 in
  let suf := (scan_cpu_suffix (scan_literal s).2).1 in
  ∃ m, match_at (regex cpuParser) s pos = Some m
       ∧ m_text m = lit +:+ suf ∧ m_caps m = [(2, suf); (1, lit)].
Proof.
  intros lit suf. unfold match_at. cbn [regex cpuParser]. rewrite cat_unfold.
  apply (literal_greedy (λ m, m_text m = lit +:+ suf ∧ m_caps m = [(2, suf); (1, lit)])).
  intros p.
  match goal with
  | |- ∃ r, mtch _ ?s' _ ?c ?k = _ ∧ _ =>
      destruct (cpu_suffix_eval s' p c k) as [p' ->]; [by eauto|]
  end.
  by eexists.
Qed.

Lemma memory_match_sound s pos m :
  match_at (regex memoryParser) s pos = Some m →
  ∃ lit u, is_literal lit ∧ u ∈ memory_suffixes
           ∧ m_text m = lit +:+ u ∧ m_caps m = [(2, u); (1, lit)].
Proof.
  unfold match_at. cbn [regex memoryParser]. rewrite cat_unfold.
  intros (lit & s' & p & -> & Hlit & H)%literal_sound.
  apply memory_suffix_sound in H as (u & s'' & p' & -> & Hu & [= <-]).
  by exists lit, u.
Qed.

Lemma memory_match_greedy s u rest pos :
  let lit := (scan_literal s).1 in
  scan_memory_suffix (scan_literal s).2 = Some (u, rest) →
  ∃ m, match_at (regex memoryParser) s pos = Some m
       ∧ m_text m = lit +:+ u ∧ m_caps m = [(2, u); (1, lit)].
Proof.
  intros lit Hu. unfold match_at. cbn [regex memoryParser]. rewrite cat_unfold.
  apply (literal_greedy (λ m, m_text m = lit +:+ u ∧ m_caps m = [(2, u); (1, lit)])).
  intros p.
  match goal with
  | |- ∃ r, mtch _ ?s' _ ?c ?k = _ ∧ _ =>
      destruct (memory_suffix_greedy s' u rest p c k) as [p' ->]; [exact Hu|by eauto|]
  end.
  by eexists.
Qed.

(** The memory pattern matches somewhere in every text: at the latest it
    matches the empty text at the end. *)
Lemma memory_search_total s pos : is_Some (search (regex memoryParser) s pos).
Proof.
  revert pos. induction s as [|a s IH]; intros pos.
  - by eexists.
  - simpl. destruct (match_at _ _ _); [by eexists | apply IH].
Qed.

Lemma submatches_two re m whole lit unit :
  NumSubexp re = 2 → m_text m = whole → m_caps m = [(2, unit); (1, lit)] →
  submatches re m = [whole; lit; unit].
Proof. unfold submatches. by intros -> -> ->. Qed.

Lemma cpu_matches s :
  let lit := (scan_literal s).1 in
  let suf := (scan_cpu_suffix (scan_literal s).2).1 in
  ∃ later, FindAllStringSubmatch (regex cpuParser) s = [lit +:+ suf; lit; suf] :: later.
Proof.
  intros lit suf. destruct (cpu_match_at s 0) as (m & Hm & Ht & Hc).
  apply search_hit, FindAllStringSubmatch_head in Hm as [later ->].
  exists later. f_equal. by apply submatches_two.
Qed.

Lemma memory_matches s :
  ∃ lit u later, is_literal lit ∧ u ∈ memory_suffixes
    ∧ FindAllStringSubmatch (regex memoryParser) s = [lit +:+ u; lit; u] :: later.
Proof.
  destruct (memory_search_total s 0) as [m Hm].
  destruct (search_sound _ _ _ _ Hm) as (pre & suf & _ & Hat).
  apply memory_match_sound in Hat as (lit & u & Hlit & Hu & Ht & Hc).
  apply FindAllStringSubmatch_head in Hm as [later ->].
  exists lit, u, later. split; [done|]. split; [done|]. f_equal. by apply submatches_two.
Qed.

Lemma memory_matches_greedy s u rest :
  let lit := (scan_literal s).1 in
  scan_memory_suffix (scan_literal s).2 = Some (u, rest) →
  ∃ later, FindAllStringSubmatch (regex memoryParser) s = [lit +:+ u; lit; u] :: later.
Proof.
  intros lit Hu. destruct (memory_match_greedy s u rest 0 Hu) as (m & Hm & Ht & Hc).
  apply search_hit, FindAllStringSubmatch_head in Hm as [later ->].
  exists later. f_equal. by apply submatches_two.
Qed.

(** [convertResource] once [matches[0]] is known to hold three strings. *)
Lemma convertResource_groups rp s whole lit unit later :
  FindAllStringSubmatch (regex rp) s = [whole; lit; unit] :: later →
  convertResource rp s = Ret (scale rp s lit unit).
Proof.
  intros H. unfold convertResource, scale. rewrite H. simpl.
  destruct (ParseFloat lit) as [num [err|]]; [done|].
  destruct (is_empty unit); simpl; [done|].
  by destruct (conversions rp !! unit).
Qed.

Lemma memory_suffix_known u :
  u ∈ memory_suffixes → u = "" ∨ is_Some (conversions memoryParser !! u).
Proof.
  unfold memory_suffixes. rewrite !elem_of_cons, elem_of_nil.
  intros H. repeat (destruct H as [->|H]; [first [by left | right; by eexists]|]). done.
Qed.

Lemma cpu_suffix_known s :
  let suf := (scan_cpu_suffix s).1 in
  suf = "" ∨ is_Some (conversions cpuParser !! suf).
Proof.
  unfold scan_cpu_suffix. destruct s as [|b t]; [by left|].
  destruct (Ascii.eqb "m" b); [right; by eexists | by left].
Qed.

(** With a suffix of the table, [scale] fails only if the literal does. *)
Lemma scale_error rp s lit unit :
  unit = "" ∨ is_Some (conversions rp !! unit) →
  (scale rp s lit unit).2 = (ParseFloat lit).2
  ∧ (is_Some (scale rp s lit unit).2 → (scale rp s lit unit).1 = f64_zero).
Proof.
  intros Hu. unfold scale. destruct (ParseFloat lit) as [num [err|]]; simpl; [done|].
  destruct Hu as [->|[f Hf]]; simpl.
  - split; [done|]. by intros [? [=]].
  - rewrite Hf. destruct (is_empty unit); simpl; (split; [done|]); by intros [? [=]].
Qed.

End QuantityFacts.

(** ** Claims on the quantity parser *)

Section QuantityClaims.

Lemma scan_literal_suffix lit u :
  is_literal lit → u ∈ memory_suffixes → scan_literal (lit +:+ u) = (lit, u).
Proof.
  intros Hlit Hu.
  assert (stops is_digit u ∧ span is_digit u = ("", u)
          ∧ match u with String b _ => Ascii.eqb "e" b = false | "" => True end)
    as (Hstop & Hspan & He).
  { unfold memory_suffixes in Hu. rewrite !elem_of_cons, elem_of_nil in Hu.
    repeat (destruct Hu as [->|Hu]; [done|]). done. }
  unfold scan_literal. destruct Hlit as [Hd | (d1 & d2 & -> & Hd1 & Hd2)].
  - rewrite (span_append _ _ _ Hd Hstop).
    destruct u as [|b t].
    + simpl. by rewrite !append_empty_r.
    + rewrite He, Hspan. simpl. by rewrite !append_empty_r.
  - rewrite !append_assoc. simpl.
    rewrite (span_append is_digit d1 (String "e" (d2 +:+ u)) Hd1); [|done].
    simpl. by rewrite (span_append _ _ _ Hd2 Hstop).
Qed.

Lemma scan_memory_suffix_self u :
  u ∈ memory_suffixes → scan_memory_suffix u = Some (u, "").
Proof.
  unfold memory_suffixes. rewrite !elem_of_cons, elem_of_nil.
  intros H. repeat (destruct H as [->|H]; [done|]). done.
Qed.

Lemma memory_multiplier u :
  u ∈ memory_suffixes →
  match unit_multiplier u with
  | Some n => conversions memoryParser !! u = Some (f64_of_Z n)
              ∧ f64_exact (f64_of_Z n) n = true ∧ is_empty u = false
  | None => u = ""
  end.
Proof.
  unfold memory_suffixes. rewrite !elem_of_cons, elem_of_nil.
  intros H. repeat (destruct H as [->|H]; [by vm_compute|]). done.
Qed.

(** On the memory family a text that is a literal of the pattern (digits,
    or digits [e] digits) followed by a suffix is scaled by its unit: the
    result is the parsed literal times the suffix's power of 1024
    ([Ki] .. [Ei]) or of 1000 ([K] .. [E]), a power that its float64 holds
    exactly; without a suffix the result is the parsed literal itself, a
    byte count.  A literal that does not parse gives that error and
    zero. *)
Theorem MemoryToNumber_scales (lit u : string) :
  is_literal lit → u ∈ memory_suffixes →
  MemoryToNumber (lit +:+ u)
  = Ret (match ParseFloat lit with
         | (_, Some err) => (f64_zero, Some err)
         | (num, None) =>
             match unit_multiplier u with
             | Some n => (f64_mul num (f64_of_Z n), None)
             | None => (num, None)
             end
         end)
  ∧ (∀ n, unit_multiplier u = Some n → f64_exact (f64_of_Z n) n = true)
  ∧ MemoryToNumber "1Gi" = Ret (f64_of_Z 1073741824, None)
  ∧ MemoryToNumber "100Mi" = Ret (f64_of_Z 104857600, None).
Proof.
  intros Hlit Hu. split; [|split; [|by vm_compute]].
  - destruct (memory_matches_greedy (lit +:+ u) u "") as [later H].
    { rewrite (scan_literal_suffix _ _ Hlit Hu). by apply scan_memory_suffix_self. }
    rewrite (scan_literal_suffix _ _ Hlit Hu) in H. cbn [fst snd] in H.
    unfold MemoryToNumber. rewrite (convertResource_groups memoryParser _ _ _ _ _ H).
    f_equal. unfold scale. destruct (ParseFloat lit) as [num [err|]]; [done|].
    pose proof (memory_multiplier u Hu) as Hm.
    destruct (unit_multiplier u) as [n|].
    + destruct Hm as (-> & _ & ->). done.
    + by rewrite Hm.
  - intros n Hn. pose proof (memory_multiplier u Hu) as Hm.
    rewrite Hn in Hm. apply Hm.
Qed.

Lemma MemoryToNumber_scales_witness :
  MemoryToNumber ("12e3" +:+ "Ki")
  = Ret (f64_mul (f64_of_Z 12000) (f64_of_Z 1024), None).
Proof.
  refine (proj1 (MemoryToNumber_scales "12e3" "Ki" _ _)).
  - right. by exists "12", "3".
  - unfold memory_suffixes. rewrite !elem_of_cons. auto 20.
Defined.

(** C10: the two parsers return on every text.  The match list is never
    empty, [matches[0]] always holds three strings, so that the test
    [len(matches[0]) < 2] fails; the error returned is the error of
    [ParseFloat] on the captured literal, and with an error the value is
    zero.  Both patterns match the empty text. *)
Theorem quantity_parsers_total (s : string) :
  (∃ whole lit unit later v,
      regexp.FindAllStringSubmatch (regex cpuParser) s = [whole; lit; unit] :: later
      ∧ (length [whole; lit; unit] <? 2)%nat = false
      ∧ CpuToNumber s = Ret (v, (ParseFloat lit).2)
      ∧ (is_Some (ParseFloat lit).2 → v = f64_zero))
  ∧ (∃ whole lit unit later v,
      regexp.FindAllStringSubmatch (regex memoryParser) s = [whole; lit; unit] :: later
      ∧ (length [whole; lit; unit] <? 2)%nat = false
      ∧ MemoryToNumber s = Ret (v, (ParseFloat lit).2)
      ∧ (is_Some (ParseFloat lit).2 → v = f64_zero))
  ∧ regexp.FindAllStringSubmatch (regex cpuParser) "" = [[""; ""; ""]]
  ∧ regexp.FindAllStringSubmatch (regex memoryParser) "" = [[""; ""; ""]].
Proof.
  split; [|split; [|by vm_compute]].
  - destruct (cpu_matches s) as [later H].
    set (lit := (scan_literal s).1) in *.
    set (unit := (scan_cpu_suffix (scan_literal s).2).1) in *.
    destruct (scale_error cpuParser s lit unit) as [He Hz]; [apply cpu_suffix_known|].
    exists (lit +:+ unit), lit, unit, later, (scale cpuParser s lit unit).1.
    split; [done|]. split; [done|]. split.
    + unfold CpuToNumber. rewrite (convertResource_groups _ _ _ _ _ _ H).
      rewrite <- He. by destruct (scale cpuParser s lit unit).
    + by rewrite <- He.
  - destruct (memory_matches s) as (lit & unit & later & _ & Hu & H).
    destruct (scale_error memoryParser s lit unit) as [He Hz];
      [by apply memory_suffix_known|].
    exists (lit +:+ unit), lit, unit, later, (scale memoryParser s lit unit).1.
    split; [done|]. split; [done|]. split.
    + unfold MemoryToNumber. rewrite (convertResource_groups _ _ _ _ _ _ H).
      rewrite <- He. by destruct (scale memoryParser s lit unit).
    + by rewrite <- He.
Qed.

(** C1: on the cpu family, ["50m"] is 0.05 and ["1e3"] is 1000; but
    ["0.05"] is read as 0, since group 1 of the pattern stops at the
    point. *)
Theorem CpuToNumber_examples :
  CpuToNumber "50m" = Ret (f64_of_decimal false 5 (-2), None)
  ∧ CpuToNumber "1e3" = Ret (f64_of_Z 1000, None)
  ∧ CpuToNumber "0.05" = Ret (f64_zero, None)
  ∧ f64_zero ≠ f64_of_decimal false 5 (-2).
Proof. by vm_compute. Qed.

(** C3: trailing text that the cpu pattern does not match is ignored:
    ["50x"] is 50, without an error. *)
Theorem CpuToNumber_trailing_garbage :
  CpuToNumber "50x" = Ret (f64_of_Z 50, None).
Proof. by vm_compute. Qed.

(** C4: [ParseFloat] strips the commas of ["1,000"], but the quantity
    patterns stop at the first comma, so that neither parser reads
    ["1,000"] as it reads ["1000"]. *)
Theorem comma_grouped_quantity :
  ParseFloat "1,000" = (f64_of_Z 1000, None)
  ∧ ParseFloat "1000" = (f64_of_Z 1000, None)
  ∧ CpuToNumber "1,000" = Ret (f64_of_Z 1, None)
  ∧ CpuToNumber "1000" = Ret (f64_of_Z 1000, None)
  ∧ MemoryToNumber "1,000" = Ret (f64_zero, None)
  ∧ MemoryToNumber "1000" = Ret (f64_of_Z 1000, None).
Proof. by vm_compute. Qed.

End QuantityClaims.

(** ** Format checkers *)

Section FormatFacts.
Import regexp.

Lemma plus_sound {R} cls s pos c (k : string -> nat -> string -> caps -> option R) r :
  mtch (Plus cls) s pos c k = Some r →
  ∃ m s' p, s = m +:+ s' ∧ m ≠ "" ∧ all_bytes (in_class cls) m = true
            ∧ k m p s' c = Some r.
Proof.
  simpl. destruct s as [|b t]; [done|].
  destruct (in_class cls b) eqn:Hb; [|done].
  intros (m & s' & p & -> & Hm & Hk)%star_sound.
  exists (String b m), s', p. simpl. by rewrite Hb.
Qed.

Lemma plus_greedy {R} (P : R -> Prop) cls m rest c
    (k : string -> nat -> string -> caps -> option R) :
  m ≠ "" → all_bytes (in_class cls) m = true → stops (in_class cls) rest →
  (∀ p, ∃ r, k m p rest c = Some r ∧ P r) →
  ∀ pos, ∃ r, mtch (Plus cls) (m +:+ rest) pos c k = Some r ∧ P r.
Proof.
  intros Hne Hm Hrest Hk pos. destruct m as [|b m]; [done|]. simpl in *.
  apply andb_prop in Hm as [Hb Hm]. rewrite Hb.
  apply star_greedy. rewrite (span_append _ _ _ Hm Hrest). apply Hk.
Qed.

Lemma begin_unfold {R} s c (k : string -> nat -> string -> caps -> option R) :
  mtch BeginText s 0 c k = k "" 0 s c.
Proof. done. Qed.

(** A pattern that starts with [^] matches only at the start of the text. *)
Lemma anchored_search r s m :
  search (Cat BeginText r) s 0 = Some m → match_at (Cat BeginText r) s 0 = Some m.
Proof.
  intros (pre & suf & -> & H)%search_sound. destruct pre as [|a pre]; [done|].
  unfold match_at in H. rewrite cat_unfold in H. simpl in H. done.
Qed.

Lemma MatchString_anchored r s :
  MatchString (Cat BeginText r) s = true ↔ is_Some (match_at (Cat BeginText r) s 0).
Proof.
  unfold MatchString. split.
  - destruct (search _ s 0) eqn:H; [|done]. apply anchored_search in H. by eexists.
  - intros [m H]. by rewrite (search_hit _ _ _ _ H).
Qed.

Lemma MatchString_CpuUnitChecker s :
  MatchString CpuUnitChecker s = true
  ↔ ∃ d, s = d +:+ "m" ∧ d ≠ "" ∧ all_bytes (in_class cls_digit_dot) d = true.
Proof.
  unfold CpuUnitChecker. rewrite MatchString_anchored. unfold match_at.
  rewrite cat_unfold, begin_unfold. cbv beta. rewrite cat_unfold, group_unfold. split.
  - intros [m (d & s' & p & -> & Hne & Hd & H)%plus_sound].
    exists d. split; [|done]. f_equal.
    simpl in H. destruct s' as [|b t]; [done|].
    destruct (Ascii.eqb "m" b) eqn:Hb; [|done]. apply Ascii.eqb_eq in Hb as <-.
    by destruct t.
  - intros (d & -> & Hne & Hd).
    edestruct (plus_greedy (λ _ : match_result, True) cls_digit_dot d "m") as (r & -> & _);
      [done..| |by eexists].
    intros p. by eexists.
Qed.

Lemma MatchString_NoCpuUnitChecker s :
  MatchString NoCpuUnitChecker s = true
  ↔ s ≠ "" ∧ all_bytes (in_class cls_digit_dot) s = true.
Proof.
  unfold NoCpuUnitChecker. rewrite MatchString_anchored. unfold match_at.
  rewrite cat_unfold, begin_unfold. cbv beta. rewrite cat_unfold, group_unfold. split.
  - intros [m (d & s' & p & -> & Hne & Hd & H)%plus_sound].
    simpl in H. destruct s' as [|b t]; [|done]. rewrite append_empty_r.
    done.
  - intros [Hne Hd]. rewrite <- (append_empty_r s).
    edestruct (plus_greedy (λ _ : match_result, True) cls_digit_dot s "") as (r & -> & _);
      [done..| |by eexists].
    intros p. by eexists.
Qed.

Lemma MatchString_anchored_units a b s :
  in_class cls_digit a = false →
  MatchString (anchored_units cls_digit a b) s = true
  ↔ ∃ d, s = d +:+ String a (String b "") ∧ d ≠ "" ∧ all_bytes is_digit d = true.
Proof.
  intros Ha. unfold anchored_units, is_digit. rewrite MatchString_anchored. unfold match_at.
  rewrite cat_unfold, begin_unfold. cbv beta. rewrite cat_unfold. split.
  - intros [m (d & s' & p & -> & Hne & Hd & H)%plus_sound].
    exists d. split; [|done]. f_equal.
    simpl in H. destruct s' as [|x t]; [done|].
    destruct (Ascii.eqb a x) eqn:Hx; [|done]. apply Ascii.eqb_eq in Hx as <-.
    destruct t as [|y t]; [done|].
    destruct (Ascii.eqb b y) eqn:Hy; [|done]. apply Ascii.eqb_eq in Hy as <-.
    by destruct t.
  - intros (d & -> & Hne & Hd).
    edestruct (plus_greedy (λ _ : match_result, True) cls_digit d (String a (String b "")))
      as (r & -> & _); [done..| |by eexists].
    intros p. simpl. rewrite !Ascii.eqb_refl. by eexists.
Qed.

End FormatFacts.

Lemma all_bytes_ext (p q : ascii -> bool) s :
  (∀ c, p c = q c) → all_bytes p s = all_bytes q s.
Proof. intros Hpq. induction s as [|c s IH]; simpl; [done | by rewrite Hpq, IH]. Qed.

(** The classes of the patterns hold the bytes listed, and no other. *)
Lemma class_digit c : is_digit c = decimal_digit c.
Proof. destruct c as [[] [] [] [] [] [] [] []]; by vm_compute. Qed.

Lemma class_digit_dot c : in_class cls_digit_dot c = digit_or_point c.
Proof. destruct c as [[] [] [] [] [] [] [] []]; by vm_compute. Qed.

Lemma cpu_format_class s :
  cpu_format s
  ↔ (∃ d, s = d +:+ "m" ∧ d ≠ "" ∧ all_bytes (in_class cls_digit_dot) d = true)
    ∨ (s ≠ "" ∧ all_bytes (in_class cls_digit_dot) s = true).
Proof.
  unfold cpu_format. split.
  - intros [(d & Hs & Hne & Hd)|[Hne Hd]]; [left; exists d | right];
      by rewrite (all_bytes_ext _ _ _ class_digit_dot).
  - intros [(d & Hs & Hne & Hd)|[Hne Hd]]; [left; exists d | right];
      by rewrite <- (all_bytes_ext _ _ _ class_digit_dot).
Qed.

Lemma memory_format_class s :
  memory_format s
  ↔ ∃ d u, s = d +:+ u ∧ d ≠ "" ∧ all_bytes is_digit d = true
           ∧ u ∈ ["Ki"; "Mi"; "Gi"; "Ti"; "Pi"].
Proof.
  unfold memory_format. split.
  - intros (d & u & Hs & Hne & Hd & Hu). exists d, u.
    by rewrite (all_bytes_ext _ _ _ class_digit).
  - intros (d & u & Hs & Hne & Hd & Hu). exists d, u.
    by rewrite <- (all_bytes_ext _ _ _ class_digit).
Qed.

(** C8: on a string, the cpu checker accepts exactly the texts made of one
    or more digits or points, with or without a final [m], and the memory
    checker exactly one or more digits followed by [Ki], [Mi], [Gi], [Ti]
    or [Pi]; any input that is not a string is accepted by both.  The
    hints of the package, [cpuPattern] and [memoryPattern], name accepted
    texts; a text with another letter, no digit, a fraction of a memory
    unit, a decimal unit or no unit is refused. *)
Theorem format_checkers (input : value) :
  match input with
  | VString s =>
      (CpuChecker_IsFormat input = true ↔ cpu_format s)
      ∧ (MemoryChecker_IsFormat input = true ↔ memory_format s)
  | _ => CpuChecker_IsFormat input = true ∧ MemoryChecker_IsFormat input = true
  end
  ∧ (CpuChecker_IsFormat (VString "50m") = true
     ∧ CpuChecker_IsFormat (VString "0.05") = true
     ∧ CpuChecker_IsFormat (VString "50x") = false
     ∧ CpuChecker_IsFormat (VString "m") = false
     ∧ CpuChecker_IsFormat (VString "") = false
     ∧ MemoryChecker_IsFormat (VString "100Mi") = true
     ∧ MemoryChecker_IsFormat (VString "1Gi") = true
     ∧ MemoryChecker_IsFormat (VString "1Ti") = true
     ∧ MemoryChecker_IsFormat (VString "1.5Gi") = false
     ∧ MemoryChecker_IsFormat (VString "1G") = false
     ∧ MemoryChecker_IsFormat (VString "Gi") = false
     ∧ MemoryChecker_IsFormat (VString "100") = false).
Proof.
  split; [|by vm_compute].
  destruct input as [| | |s| |]; try done. split.
  - rewrite cpu_format_class. unfold CpuChecker_IsFormat.
    rewrite <- MatchString_CpuUnitChecker, <- MatchString_NoCpuUnitChecker.
    destruct (regexp.MatchString CpuUnitChecker s),
      (regexp.MatchString NoCpuUnitChecker s); intuition discriminate.
  - rewrite memory_format_class. unfold MemoryChecker_IsFormat,
      MiChecker, GiChecker, TiChecker, PiChecker, KiChecker.
    pose proof (MatchString_anchored_units "M" "i" s eq_refl) as HM.
    pose proof (MatchString_anchored_units "G" "i" s eq_refl) as HG.
    pose proof (MatchString_anchored_units "T" "i" s eq_refl) as HT.
    pose proof (MatchString_anchored_units "P" "i" s eq_refl) as HP.
    pose proof (MatchString_anchored_units "K" "i" s eq_refl) as HK.
    split.
    + intros H.
      destruct (regexp.MatchString (anchored_units cls_digit "M" "i") s);
        [destruct HM as [(d & -> & ? & ?) _]; [done|]; exists d, "Mi"; rewrite !elem_of_cons; auto 10|].
      destruct (regexp.MatchString (anchored_units cls_digit "G" "i") s);
        [destruct HG as [(d & -> & ? & ?) _]; [done|]; exists d, "Gi"; rewrite !elem_of_cons; auto 10|].
      destruct (regexp.MatchString (anchored_units cls_digit "T" "i") s);
        [destruct HT as [(d & -> & ? & ?) _]; [done|]; exists d, "Ti"; rewrite !elem_of_cons; auto 10|].
      destruct (regexp.MatchString (anchored_units cls_digit "P" "i") s);
        [destruct HP as [(d & -> & ? & ?) _]; [done|]; exists d, "Pi"; rewrite !elem_of_cons; auto 10|].
      destruct (regexp.MatchString (anchored_units cls_digit "K" "i") s);
        [destruct HK as [(d & -> & ? & ?) _]; [done|]; exists d, "Ki"; rewrite !elem_of_cons; auto 10|].
      done.
    + intros (d & u & -> & Hne & Hd & Hu).
      rewrite !elem_of_cons, elem_of_nil in Hu.
      destruct Hu as [->|[->|[->|[->|[->|[]]]]]].
      * rewrite (proj2 HK); [|by exists d]. by repeat case_match.
      * by rewrite (proj2 HM); [|by exists d].
      * rewrite (proj2 HG); [|by exists d]. by repeat case_match.
      * rewrite (proj2 HT); [|by exists d]. by repeat case_match.
      * rewrite (proj2 HP); [|by exists d]. by repeat case_match.
Qed.

(** ** Validation *)

#[local] Arguments CpuToNumber : simpl never.
#[local] Arguments MemoryToNumber : simpl never.
#[local] Arguments lookup : simpl never.

Lemma CpuToNumber_returns s : ∃ v e, CpuToNumber s = Ret (v, e).
Proof.
  destruct (cpu_matches s) as [later H]. unfold CpuToNumber.
  rewrite (convertResource_groups cpuParser _ _ _ _ _ H).
  destruct (scale _ _ _ _) as [v e]. by exists v, e.
Qed.

Lemma MemoryToNumber_returns s : ∃ v e, MemoryToNumber s = Ret (v, e).
Proof.
  destruct (memory_matches s) as (lit & u & later & _ & _ & H). unfold MemoryToNumber.
  rewrite (convertResource_groups memoryParser _ _ _ _ _ H).
  destruct (scale _ _ _ _) as [v e]. by exists v, e.
Qed.

Lemma f64_lt_irrefl x : f64_lt x x = false.
Proof.
  unfold f64_lt, SFltb, SFcompare.
  destruct x as [[]|[]| |[] m e]; try done;
    by rewrite Z.compare_refl, Pos.compare_cont_refl.
Qed.

Lemma map_index_lookup (m : gmap string value) k v :
  m !! k = Some v → map_index m k = v.
Proof. unfold map_index. by intros ->. Qed.

Lemma path3_get dat a b c : path3 dat a b c = path_get dat [a; b; c].
Proof. done. Qed.

Lemma path4_get dat a b c d : path4 dat a b c d = path_get dat [a; b; c; d].
Proof. done. Qed.

Lemma lookup_map2 dat a b m :
  lookup_path (VMap dat) [a; b] = Some (VMap m) →
  ∃ m1, map_index dat a = VMap m1 ∧ map_index m1 b = VMap m.
Proof.
  unfold map_index. simpl. destruct (dat !! a) as [[| | | | |m1]|]; simpl; try done.
  destruct (m1 !! b) as [v|] eqn:Hb; simpl; [|done]. intros [= ->].
  exists m1. by rewrite Hb.
Qed.

Lemma lookup_map3 dat a b c m :
  lookup_path (VMap dat) [a; b; c] = Some (VMap m) →
  ∃ m1 m2, map_index dat a = VMap m1 ∧ map_index m1 b = VMap m2
           ∧ map_index m2 c = VMap m.
Proof.
  unfold map_index. simpl. destruct (dat !! a) as [[| | | | |m1]|]; simpl; try done.
  destruct (m1 !! b) as [[| | | | |m2]|] eqn:Hb; simpl; try done.
  destruct (m2 !! c) as [v|] eqn:Hc; simpl; [|done]. intros [= ->].
  exists m1, m2. by rewrite Hb, Hc.
Qed.

Lemma lookup_leaf3 dat a b c v :
  lookup_path (VMap dat) [a; b; c] = Some v →
  ∃ m, lookup_path (VMap dat) [a; b] = Some (VMap m) ∧ m !! c = Some v.
Proof.
  simpl. destruct (dat !! a) as [[| | | | |m1]|]; simpl; try done.
  destruct (m1 !! b) as [[| | | | |m2]|]; simpl; try done.
  destruct (m2 !! c) as [w|] eqn:Hc; simpl; [|done]. intros [= ->]. by exists m2.
Qed.

Lemma lookup_leaf4 dat a b c d v :
  lookup_path (VMap dat) [a; b; c; d] = Some v →
  ∃ m, lookup_path (VMap dat) [a; b; c] = Some (VMap m) ∧ m !! d = Some v.
Proof.
  simpl. destruct (dat !! a) as [[| | | | |m1]|]; simpl; try done.
  destruct (m1 !! b) as [[| | | | |m2]|]; simpl; try done.
  destruct (m2 !! c) as [[| | | | |m3]|]; simpl; try done.
  destruct (m3 !! d) as [w|] eqn:Hd; simpl; [|done]. intros [= ->]. by exists m3.
Qed.

#[local] Arguments map_index : simpl never.

Lemma if_ret {A} (b : bool) (x y : A) :
  (if b then Ret x else Ret y) = Ret (if b then x else y).
Proof. by destruct b. Qed.

(** The reads of a document whose maps and strings are known. *)
Ltac reads Hres Hlim Hreq Henv Heres Helim Hereq L1 L2 L3 L4 L5 L6 L7 L8 :=
  repeat first
    [ rewrite Hres | rewrite Hlim | rewrite Hreq | rewrite Henv
    | rewrite Heres | rewrite Helim | rewrite Hereq
    | rewrite L1 | rewrite L2 | rewrite L3 | rewrite L4
    | rewrite L5 | rewrite L6 | rewrite L7 | rewrite L8
    | progress simpl ].

(** The reads of [Autoscale] and of [path_get], once the four maps are
    known. *)
Ltac known_maps Hres Hlim Hreq Henv Heres Helim Hereq :=
  repeat first
    [ rewrite Hres | rewrite Hlim | rewrite Hreq | rewrite Henv
    | rewrite Heres | rewrite Helim | rewrite Hereq | progress simpl ].

Section ValidationClaims.

Variable schema_exists : string -> bool.
Variable load_schema : string -> value.
Variable json_Marshal : value -> option error.
Variable gojsonschema_Validate :
  list (string * (value -> bool)) -> value -> value -> Result * option error.

(** With the schema there, an error returned by the engine, or by
    encoding the document, ends the call with ok=false and that very
    error, whatever the result the engine gave with it. *)
Theorem engine_error_propagates templatejson schemafile result err :
  schema_exists schemafile = true →
  json_Marshal templatejson = Some err
  ∨ (json_Marshal templatejson = None
     ∧ gojsonschema_Validate FormatCheckers (load_schema schemafile) templatejson
       = (result, Some err)) →
  DeploymentTemplateValidate schema_exists load_schema json_Marshal
    gojsonschema_Validate templatejson schemafile = Ret (false, Some err).
Proof.
  intros Hex [Hm | [Hm Hv]]; unfold DeploymentTemplateValidate;
    rewrite Hex, Hm; [done|]. by rewrite Hv.
Qed.

(** A valid document whose [autoscaling] object has no [enabled], or has
    it [false], passes with ok=true and no error, whatever its resource
    fields are. *)
Theorem autoscaling_disabled_skips dat am schemafile :
  schema_valid schema_exists load_schema json_Marshal gojsonschema_Validate
    (VMap dat) schemafile →
  dat !! "autoscaling" = Some (VMap am) →
  am !! "enabled" = None ∨ am !! "enabled" = Some (VBool false) →
  DeploymentTemplateValidate schema_exists load_schema json_Marshal
    gojsonschema_Validate (VMap dat) schemafile = Ret (true, None).
Proof.
  intros (Hex & Hm & result & Hv & Hvalid) Hauto Hflag.
  unfold DeploymentTemplateValidate. rewrite Hex, Hm, Hv, Hvalid. simpl.
  unfold path2. rewrite (map_index_lookup _ _ _ Hauto). simpl.
  by destruct Hflag as [-> | ->].
Qed.

(** C6, as the code has it: with autoscaling enabled, the eight fields
    are read in the order of [required_fields]; the first one that is
    absent from its map ends the call with its own message, and nothing
    after it is read.  [Autoscale] reads them in the same order once its
    four maps are there.  The eight messages differ. *)
Theorem first_absent_field_reported dat am msg schemafile :
  schema_valid schema_exists load_schema json_Marshal gojsonschema_Validate
    (VMap dat) schemafile →
  dat !! "autoscaling" = Some (VMap am) →
  am !! "enabled" = Some (VBool true) →
  first_absent dat required_fields = Ret (Some msg) →
  DeploymentTemplateValidate schema_exists load_schema json_Marshal
    gojsonschema_Validate (VMap dat) schemafile = Ret (false, Some (ErrorString msg))
  ∧ (blocks_present dat → Autoscale dat = Ret (false, Some (ErrorString msg)))
  ∧ NoDup (required_fields.*2).
Proof.
  intros (Hex & Hm & result & Hv & Hvalid) Hauto Hflag Habs.
  unfold required_fields in Habs. split; [|split].
  - unfold DeploymentTemplateValidate. rewrite Hex, Hm, Hv, Hvalid. simpl.
    unfold path2. rewrite (map_index_lookup _ _ _ Hauto). simpl. rewrite Hflag. simpl. clear Hauto Hflag Hv.
    change (path3 ?d ?a ?b ?c) with (path_get d [a; b; c]).
    change (path4 ?d ?a ?b ?c ?e) with (path_get d [a; b; c; e]).
    unfold require. cbn [first_absent] in Habs.
    generalize dependent (path_get dat). intros g Habs.
    repeat match type of Habs with
    | context [mbind _ (g ?ks)] =>
        destruct (g ks) as [[?|]|]; simpl in *;
        [ | by injection Habs as <- | done ]
    end.
    done.
  - intros (lim & req & elim & ereq & H1 & H2 & H3 & H4).
    apply lookup_map2 in H1 as (res & Hres & Hlim).
    apply lookup_map2 in H2 as (res' & Hres' & Hreq).
    rewrite Hres in Hres'. injection Hres' as <-.
    apply lookup_map3 in H3 as (env & eres & Henv & Heres & Helim).
    apply lookup_map3 in H4 as (env' & eres' & Henv' & Heres' & Hereq).
    rewrite Henv in Henv'. injection Henv' as <-.
    rewrite Heres in Heres'. injection Heres' as <-.
    clear Hauto Hflag Hv. unfold Autoscale, require.
    known_maps Hres Hlim Hreq Henv Heres Helim Hereq.
    revert Habs. known_maps Hres Hlim Hreq Henv Heres Helim Hereq.
    destruct (lim !! "cpu") as [?|]; [|by intros [= <-]].
    destruct (lim !! "memory") as [?|]; [|by intros [= <-]].
    destruct (req !! "cpu") as [?|]; [|by intros [= <-]].
    destruct (req !! "memory") as [?|]; [|by intros [= <-]].
    destruct (elim !! "cpu") as [?|]; [|by intros [= <-]].
    destruct (elim !! "memory") as [?|]; [|by intros [= <-]].
    destruct (ereq !! "cpu") as [?|]; [|by intros [= <-]].
    destruct (ereq !! "memory") as [?|]; [|by intros [= <-]].
    done.
  - apply (bool_decide_unpack _). by vm_compute.
Qed.

(** The comparison of the eight parsed strings, in both functions. *)
Lemma compared dat r :
  has_strings dat r →
  Autoscale dat
  = Ret (if violated r
         then (false, Some (ErrorString "requests is greater than limits"))
         else (true, None))
  ∧ ∀ am schemafile,
      schema_valid schema_exists load_schema json_Marshal gojsonschema_Validate
    (VMap dat) schemafile →
      dat !! "autoscaling" = Some (VMap am) →
      am !! "enabled" = Some (VBool true) →
      DeploymentTemplateValidate schema_exists load_schema json_Marshal
    gojsonschema_Validate (VMap dat) schemafile
      = Ret (if violated r
             then (false, Some (ErrorString "requests is greater than limits"))
             else (true, None)).
Proof.
  intros (H1 & H2 & H3 & H4 & H5 & H6 & H7 & H8).
  destruct r as [cl ml cr mr ecl eml ecr emr]. unfold violated. cbn [cpu_limit
    memory_limit cpu_request memory_request envoy_cpu_limit envoy_memory_limit
    envoy_cpu_request envoy_memory_request] in *.
  apply lookup_leaf3 in H1 as (lim & Bl & L1).
  apply lookup_leaf3 in H2 as (lim' & Bl' & L2).
  rewrite Bl in Bl'. injection Bl' as <-.
  apply lookup_leaf3 in H3 as (req & Br & L3).
  apply lookup_leaf3 in H4 as (req' & Br' & L4).
  rewrite Br in Br'. injection Br' as <-.
  apply lookup_leaf4 in H5 as (elim & Bel & L5).
  apply lookup_leaf4 in H6 as (elim' & Bel' & L6).
  rewrite Bel in Bel'. injection Bel' as <-.
  apply lookup_leaf4 in H7 as (ereq & Ber & L7).
  apply lookup_leaf4 in H8 as (ereq' & Ber' & L8).
  rewrite Ber in Ber'. injection Ber' as <-.
  apply lookup_map2 in Bl as (res & Hres & Hlim).
  apply lookup_map2 in Br as (res' & Hres' & Hreq).
  rewrite Hres in Hres'. injection Hres' as <-.
  apply lookup_map3 in Bel as (env & eres & Henv & Heres & Helim).
  apply lookup_map3 in Ber as (env' & eres' & Henv' & Heres' & Hereq).
  rewrite Henv in Henv'. injection Henv' as <-.
  rewrite Heres in Heres'. injection Heres' as <-.
  destruct (CpuToNumber_returns cl) as (v1 & e1 & E1).
  destruct (MemoryToNumber_returns ml) as (v2 & e2 & E2).
  destruct (CpuToNumber_returns cr) as (v3 & e3 & E3).
  destruct (MemoryToNumber_returns mr) as (v4 & e4 & E4).
  destruct (CpuToNumber_returns ecl) as (v5 & e5 & E5).
  destruct (MemoryToNumber_returns eml) as (v6 & e6 & E6).
  destruct (CpuToNumber_returns ecr) as (v7 & e7 & E7).
  destruct (MemoryToNumber_returns emr) as (v8 & e8 & E8).
  rewrite E1, E2, E3, E4, E5, E6, E7, E8. cbn [value_of].
  split.
  - unfold Autoscale, require.
    reads Hres Hlim Hreq Henv Heres Helim Hereq L1 L2 L3 L4 L5 L6 L7 L8.
    rewrite E1. simpl. rewrite E2. simpl. rewrite E3. simpl. rewrite E4. simpl.
    rewrite E5. simpl. rewrite E6. simpl. rewrite E7. simpl. rewrite E8. simpl.
    apply if_ret.
  - intros am schemafile (Hex & Hm & result & Hv & Hvalid) Hauto Hflag.
    unfold DeploymentTemplateValidate. rewrite Hex, Hm, Hv, Hvalid. simpl.
    unfold path2. rewrite (map_index_lookup _ _ _ Hauto). simpl. rewrite Hflag. simpl.
    unfold require, path3, path4.
    reads Hres Hlim Hreq Henv Heres Helim Hereq L1 L2 L3 L4 L5 L6 L7 L8.
    rewrite E1. simpl. rewrite E2. simpl. rewrite E3. simpl. rewrite E4. simpl.
    rewrite E5. simpl. rewrite E6. simpl. rewrite E7. simpl. rewrite E8. simpl.
    apply if_ret.
Qed.

(** With autoscaling enabled and the eight strings present, the call
    fails exactly when one of the four comparisons has the number parsed
    from its limit strictly below the number parsed from its request, and
    then with the one message that names none of them; limits equal to
    their requests pass.  [Autoscale] compares the same way. *)
Theorem limits_compared_inclusively dat am r schemafile :
  schema_valid schema_exists load_schema json_Marshal gojsonschema_Validate
    (VMap dat) schemafile →
  dat !! "autoscaling" = Some (VMap am) →
  am !! "enabled" = Some (VBool true) →
  has_strings dat r →
  DeploymentTemplateValidate schema_exists load_schema json_Marshal
    gojsonschema_Validate (VMap dat) schemafile
  = Ret (if violated r
         then (false, Some (ErrorString "requests is greater than limits"))
         else (true, None))
  ∧ Autoscale dat
    = Ret (if violated r
           then (false, Some (ErrorString "requests is greater than limits"))
           else (true, None))
  ∧ (cpu_limit r = cpu_request r → memory_limit r = memory_request r →
     envoy_cpu_limit r = envoy_cpu_request r →
     envoy_memory_limit r = envoy_memory_request r →
     violated r = false).
Proof.
  intros Hvalid Hauto Hflag Hr. destruct (compared dat r Hr) as [Ha Hv].
  split; [by eapply Hv|]. split; [done|].
  unfold violated. intros -> -> -> ->. by rewrite !f64_lt_irrefl.
Qed.

End ValidationClaims.

(** ** Instances *)

Lemma engine_error_propagates_witness :
  DeploymentTemplateValidate any_file no_schema marshals broken_engine (VMap ∅) "deployment"
  = Ret (false, Some (ErrorString "schema is invalid")).
Proof.
  apply (engine_error_propagates any_file no_schema marshals broken_engine
           (VMap ∅) "deployment" valid_result).
  - reflexivity.
  - right. split; reflexivity.
Defined.

Lemma accept_all_valid doc schemafile :
  schema_valid any_file no_schema marshals accept_all doc schemafile.
Proof. split; [done|]. split; [done|]. by exists valid_result. Defined.

Lemma autoscaling_disabled_skips_witness :
  DeploymentTemplateValidate any_file no_schema marshals accept_all
    (VMap (document_map false (resources None None None None) VNil)) "deployment"
  = Ret (true, None).
Proof.
  apply (autoscaling_disabled_skips any_file no_schema marshals accept_all
           (document_map false (resources None None None None) VNil)
           (list_to_map [("enabled", VBool false)]) "deployment").
  - apply accept_all_valid.
  - by vm_compute.
  - right. by vm_compute.
Defined.

(** C2: a document without an [autoscaling] object has no
    [autoscaling.enabled], and the check is not skipped for it: on the
    empty object, which a schema may accept, the call panics on the
    missing [autoscaling] map instead of returning ok=true. *)
Theorem autoscaling_absent_panics :
  schema_valid any_file no_schema marshals accept_all (VMap ∅) "deployment"
  ∧ lookup_path (VMap ∅) ["autoscaling"; "enabled"] = None
  ∧ DeploymentTemplateValidate any_file no_schema marshals accept_all (VMap ∅) "deployment"
    = Panic "interface conversion: interface {} is not map[string]interface {}"
  ∧ DeploymentTemplateValidate any_file no_schema marshals accept_all (VMap ∅) "deployment"
    ≠ Ret (true, None).
Proof. split; [apply accept_all_valid|]. by vm_compute. Qed.

Lemma first_absent_field_reported_witness :
  DeploymentTemplateValidate any_file no_schema marshals accept_all
    (VMap (document_map true (resources (Some "1") (Some "1Gi") (Some "1") None)
             (resources None None None None))) "deployment"
  = Ret (false, Some (ErrorString "Memory requests is required")).
Proof.
  refine (proj1 (first_absent_field_reported any_file no_schema marshals accept_all
           (document_map true (resources (Some "1") (Some "1Gi") (Some "1") None)
              (resources None None None None))
           (list_to_map [("enabled", VBool true)])
           "Memory requests is required" "deployment" _ _ _ _)).
  - apply accept_all_valid.
  - by vm_compute.
  - by vm_compute.
  - by vm_compute.
Defined.

(** C6, as stated, fails when a map on the way to the first absent field
    is missing: with autoscaling on and no [resources], the primary cpu
    limit is absent and the call panics instead of reporting it.  And
    [Autoscale] reports a missing [requests] map of the sidecar before the
    absent primary cpu limit. *)
Lemma absent_field_not_reported :
  schema_valid any_file no_schema marshals accept_all (VMap only_autoscaling) "deployment"
  ∧ lookup_path (VMap only_autoscaling) ["autoscaling"; "enabled"] = Some (VBool true)
  ∧ lookup_path (VMap only_autoscaling) ["resources"; "limits"; "cpu"] = None
  ∧ DeploymentTemplateValidate any_file no_schema marshals accept_all
      (VMap only_autoscaling) "deployment"
    = Panic "interface conversion: interface {} is not map[string]interface {}"
  ∧ lookup_path (VMap no_sidecar_requests) ["resources"; "limits"; "cpu"] = None
  ∧ Autoscale no_sidecar_requests
    = Ret (false, Some (ErrorString "envoproxyMemory is required")).
Proof. split; [apply accept_all_valid|]. by vm_compute. Qed.

Lemma limits_compared_inclusively_witness :
  DeploymentTemplateValidate any_file no_schema marshals accept_all
    (VMap (document_map true (resources (Some "500m") (Some "1Gi") (Some "500m") (Some "1Gi"))
             (resources (Some "50m") (Some "100Mi") (Some "50m") (Some "100Mi"))))
    "deployment"
  = Ret (true, None).
Proof.
  refine (proj1 (limits_compared_inclusively any_file no_schema marshals accept_all
           (document_map true (resources (Some "500m") (Some "1Gi") (Some "500m") (Some "1Gi"))
              (resources (Some "50m") (Some "100Mi") (Some "50m") (Some "100Mi")))
           (list_to_map [("enabled", VBool true)])
           {| cpu_limit := "500m"; memory_limit := "1Gi";
              cpu_request := "500m"; memory_request := "1Gi";
              envoy_cpu_limit := "50m"; envoy_memory_limit := "100Mi";
              envoy_cpu_request := "50m"; envoy_memory_request := "100Mi" |}
           "deployment" _ _ _ _)).
  - apply accept_all_valid.
  - by vm_compute.
  - by vm_compute.
  - by vm_compute.
Defined.

(** * Further facts *)

(** ** ContainsString *)

(** X1: [ContainsString] answers whether the element is in the list. *)
Theorem ContainsString_elem_of (list : list string) (element : string) :
  ContainsString list element = true ↔ element ∈ list.
Proof.
  unfold ContainsString. destruct list as [|l0 rest].
  { simpl. split; [done|]. by intros ?%elem_of_nil. }
  change (length (l0 :: rest) =? 0)%nat with false. cbv iota.
  induction (l0 :: rest) as [|l list IH]; simpl.
  - split; [done|]. by intros ?%elem_of_nil.
  - rewrite elem_of_cons. destruct (String.eqb_spec l element) as [->|Hne].
    + by split; [left|].
    + rewrite IH. split; [by right|]. by intros [->|].
Qed.

(** ** ExtractChartVersion *)

Lemma read_sign_unsigned c s :
  c ≠ "-"%char → c ≠ "+"%char → read_sign (String c s) = (false, String c s).
Proof.
  intros Hm Hp. unfold read_sign.
  destruct c as [[] [] [] [] [] [] [] []]; done.
Qed.

Lemma digit_unsigned c : is_digit c = true → c ≠ "-"%char ∧ c ≠ "+"%char.
Proof. intros H. split; intros ->; by vm_compute in H. Qed.

Lemma digit_not_dot c : is_digit c = true → Ascii.eqb c "." = false.
Proof.
  intros H. destruct (Ascii.eqb_spec c ".") as [->|]; [by vm_compute in H | done].
Qed.

Lemma Atoi_digits d :
  d ≠ "" → all_bytes is_digit d = true → (digits_value 0 d < 2 ^ 63)%Z →
  Atoi d = (digits_value 0 d, None).
Proof.
  intros Hne Hd Hlt. destruct d as [|c d]; [done|]. clear Hne.
  unfold Atoi, strconv.ParseInt.
  pose proof Hd as Hc. simpl in Hc. apply andb_prop in Hc as [Hc _].
  destruct (digit_unsigned c Hc) as [Hm Hp].
  rewrite (read_sign_unsigned _ _ Hm Hp), Hd.
  change (is_empty (String c d)) with false. cbv iota. simpl orb. cbv iota.
  destruct (Z.leb_spec (2 ^ 63) (digits_value 0 (String c d))); [lia | done].
Qed.

Lemma Split_undotted a :
  without "." a = true → strings_Split a "." = [a].
Proof.
  unfold without. induction a as [|c a IH]; simpl; [done|].
  intros [Hc Ha]%andb_prop. apply negb_true_iff in Hc. rewrite Hc, (IH Ha). done.
Qed.

Lemma Split_first a t :
  without "." a = true → strings_Split (a +:+ String "." t) "." = a :: strings_Split t ".".
Proof.
  unfold without. induction a as [|c a IH]; simpl; [done|].
  intros [Hc Ha]%andb_prop. apply negb_true_iff in Hc. rewrite Hc, (IH Ha). done.
Qed.

Lemma digits_undotted d : all_bytes is_digit d = true → without "." d = true.
Proof.
  unfold without. induction d as [|c d IH]; simpl; [done|].
  intros [Hc Hd]%andb_prop. by rewrite (digit_not_dot c Hc), (IH Hd).
Qed.

(** X2: a version text [major.minor], whatever follows the minor number
    after a further point, gives the two numbers and no error. *)
Theorem ExtractChartVersion_major_minor (a b tail : string) :
  a ≠ "" → all_bytes is_digit a = true → (digits_value 0 a < 2 ^ 63)%Z →
  b ≠ "" → all_bytes is_digit b = true → (digits_value 0 b < 2 ^ 63)%Z →
  tail = "" ∨ (∃ t, tail = String "." t) →
  ExtractChartVersion (a +:+ String "." (b +:+ tail))
  = Ret (digits_value 0 a, digits_value 0 b, None).
Proof.
  intros Ha Hda Hla Hb Hdb Hlb Htail. unfold ExtractChartVersion.
  destruct a as [|c a]; [done|]. change (is_empty (String c a +:+ _)) with false.
  cbv iota zeta. rewrite (Split_first _ _ (digits_undotted _ Hda)).
  assert (∃ more, strings_Split (b +:+ tail) "." = b :: more) as [more ->].
  { destruct Htail as [->|[t ->]].
    - rewrite append_empty_r, (Split_undotted _ (digits_undotted _ Hdb)). by eexists.
    - rewrite (Split_first _ _ (digits_undotted _ Hdb)). by eexists. }
  simpl. by rewrite (Atoi_digits _ Ha Hda Hla), (Atoi_digits _ Hb Hdb Hlb).
Qed.

Lemma ExtractChartVersion_major_minor_witness :
  ExtractChartVersion ("4" +:+ String "." ("11" +:+ ".0")) = Ret (4%Z, 11%Z, None).
Proof.
  apply (ExtractChartVersion_major_minor "4" "11" ".0"); try done.
  right. by exists "0".
Defined.

(** X3: a version text without a point never gives a version: it is an
    error when it is not an integer, and when it is one the read of the
    minor component, [chartVersions[1]], is out of range and panics. *)
Theorem ExtractChartVersion_undotted (s : string) :
  s ≠ "" → without "." s = true →
  ExtractChartVersion s
  = match Atoi s with
    | (_, Some err) => Ret (0%Z, 0%Z, Some err)
    | (_, None) => Panic "index out of range"
    end.
Proof.
  intros Hne Hs. unfold ExtractChartVersion. destruct s as [|c s]; [done|].
  change (is_empty (String c s)) with false. cbv iota zeta.
  rewrite (Split_undotted _ Hs). simpl.
  by destruct (Atoi (String c s)) as [n [err|]].
Qed.

Lemma ExtractChartVersion_undotted_witness :
  ExtractChartVersion "3" = Panic "index out of range"
  ∧ ExtractChartVersion "v3"
    = Ret (0%Z, 0%Z, Some (NumError "Atoi" "v3" ErrSyntax)).
Proof.
  split.
  - by rewrite (ExtractChartVersion_undotted "3").
  - by rewrite (ExtractChartVersion_undotted "v3").
Defined.

(** ** AppendErrorString and GetErrorOrNil *)

Section ErrorFacts.

Variable err_type : Type.
Variable Error : err_type -> string.
Variable Sprintf : string -> string.
(** A format without [%] is printed as it is. *)
Hypothesis Sprintf_plain : ∀ s, without "%" s = true → Sprintf s = s.

Lemma AppendErrorString_fold (results : list (option err_type)) (errs : list string) :
  fold_left (AppendErrorString err_type Error) results errs
  = errs ++ omap (fmap Error) results.
Proof.
  revert errs. induction results as [|[e|] results IH]; intros errs; simpl.
  - by rewrite app_nil_r.
  - by rewrite IH, <- app_assoc.
  - apply IH.
Qed.

Lemma Join_plain (msgs : list string) :
  Forall (λ m, without "%" m = true) msgs → without "%" (strings_Join msgs newline) = true.
Proof.
  unfold without. induction 1 as [|m msgs Hm _ IH]; [done|].
  destruct msgs as [|m' msgs]; [done|].
  change (strings_Join (m :: m' :: msgs) newline) with (m +:+ newline +:+ strings_Join (m' :: msgs) newline).
  by rewrite !all_bytes_append, Hm, IH.
Qed.

(** X4: collecting the outcomes of a run of steps with
    [AppendErrorString] keeps the messages of the errors, in order; then
    [GetErrorOrNil] is [nil] exactly when no step failed, and otherwise,
    when no message holds a [%], its message is the messages joined by
    newlines. *)
Theorem errors_collected (results : list (option err_type)) :
  let msgs := omap (fmap Error) results in
  let errs := fold_left (AppendErrorString err_type Error) results [] in
  errs = msgs
  ∧ (GetErrorOrNil Sprintf errs = None ↔ Forall (λ r, r = None) results)
  ∧ (msgs ≠ [] → Forall (λ m, without "%" m = true) msgs →
     GetErrorOrNil Sprintf errs = Some (strings_Join msgs newline)).
Proof using Sprintf_plain.
  intros msgs errs. unfold errs. rewrite AppendErrorString_fold. simpl.
  fold msgs. split; [done|]. unfold GetErrorOrNil. split.
  - unfold msgs. clear. induction results as [|[e|] results IH]; simpl.
    + split; [by constructor | done].
    + split; [done|]. by intros [[=] _]%Forall_cons_1.
    + rewrite IH. split; [by constructor | by intros [_ ?]%Forall_cons_1].
  - intros Hne Hplain. destruct msgs as [|m msgs']; [done|].
    change (0 <? length (m :: msgs'))%nat with true. cbv iota.
    by rewrite (Sprintf_plain _ (Join_plain _ Hplain)).
Qed.

End ErrorFacts.

Lemma errors_collected_witness :
  GetErrorOrNil (λ s, s)
    (fold_left (AppendErrorString string (λ s, s))
       [Some "no chart"; None; Some "no values"] [])
  = Some ("no chart" +:+ newline +:+ "no values").
Proof.
  refine (proj2 (proj2 (errors_collected string (λ s, s) (λ s, s) _
           [Some "no chart"; None; Some "no values"])) _ _).
  - done.
  - done.
  - repeat constructor.
Defined.

(** ** Generate *)

Section GenerateFacts.

Variable rng : Type.
Variable Intn : rng -> Z -> Z * rng.
(** [rand.Intn(n)] is in [[0, n)] for a positive [n]. *)
Hypothesis Intn_range : ∀ st n, (0 < n)%Z → (0 ≤ (Intn st n).1 < n)%Z.

Lemma Generate_loop_spec n st b :
  ∃ s, Generate_loop rng Intn n st b = Ret (b +:+ s)
       ∧ String.length s = n
       ∧ all_bytes (λ c, bool_decide (c ∈ chars)) s = true.
Proof using Intn_range.
  revert st b. induction n as [|n IH]; intros st b; cbn [Generate_loop].
  - exists "". by rewrite append_empty_r.
  - pose proof (Intn_range st 36 eq_refl) as Hr.
    change (Z.of_nat (length chars)) with 36%Z.
    destruct (Intn st 36) as [i st']. cbn [fst] in Hr.
    destruct (Z.ltb_spec i 0); [lia|]. unfold index.
    destruct (chars !! Z.to_nat i) as [c|] eqn:Hc.
    + destruct (IH st' (b +:+ String c "")) as (s & Hs & Hlen & Hall).
      cbn [mbind outcome_bind]. rewrite Hs.
      exists (String c s). rewrite append_assoc. simpl. split; [done|].
      split; [by rewrite Hlen|]. rewrite Hall, andb_true_r.
      apply bool_decide_eq_true. by eapply list_elem_of_lookup_2.
    + apply lookup_ge_None in Hc. change (length chars) with 36%nat in Hc. lia.
Qed.

(** X5: [Generate] never panics and returns exactly [size] bytes, each
    from [chars]; nothing for a [size] that is zero or negative. *)
Theorem Generate_length_alphabet (st : rng) (size : Z) :
  ∃ s, Generate rng Intn st size = Ret s
       ∧ String.length s = Z.to_nat size
       ∧ all_bytes (λ c, bool_decide (c ∈ chars)) s = true.
Proof using Intn_range.
  unfold Generate. destruct (Generate_loop_spec (Z.to_nat size) st "") as (s & H & ?).
  exists s. by rewrite H.
Qed.

End GenerateFacts.

Lemma Generate_length_alphabet_witness :
  ∃ s, Generate Z (λ st n, ((st mod n)%Z, (st + 7)%Z)) 5%Z 3%Z = Ret s
       ∧ String.length s = 3%nat
       ∧ all_bytes (λ c, bool_decide (c ∈ chars)) s = true.
Proof.
  apply (Generate_length_alphabet Z (λ st n, ((st mod n)%Z, (st + 7)%Z))).
  intros st n Hn. simpl. by apply Z.mod_pos_bound.
Defined.

(** ** More on the quantity parsers *)

Section QuantityMore.

Lemma scan_literal_stop lit rest :
  is_literal lit → ends_literal rest = true → scan_literal (lit +:+ rest) = (lit, rest).
Proof.
  intros Hlit Hrest.
  assert (stops is_digit rest ∧ span is_digit rest = ("", rest)
          ∧ match rest with String b _ => Ascii.eqb "e" b = false | "" => True end)
    as (Hstop & Hspan & He).
  { destruct rest as [|c rest]; [done|]. simpl in Hrest.
    apply andb_prop in Hrest as [Hd He]. apply negb_true_iff in Hd, He.
    split; [done|]. split; [|done]. simpl. by rewrite Hd. }
  unfold scan_literal. destruct Hlit as [Hd | (d1 & d2 & -> & Hd1 & Hd2)].
  - rewrite (span_append _ _ _ Hd Hstop).
    destruct rest as [|b t].
    + simpl. by rewrite !append_empty_r.
    + rewrite He, Hspan. simpl. by rewrite !append_empty_r.
  - rewrite !append_assoc. simpl.
    rewrite (span_append is_digit d1 (String "e" (d2 +:+ rest)) Hd1); [|done].
    simpl. by rewrite (span_append _ _ _ Hd2 Hstop).
Qed.

Lemma cpu_scale_known s lit rest :
  scale cpuParser s lit (scan_cpu_suffix rest).1
  = match ParseFloat lit with
    | (_, Some err) => (f64_zero, Some err)
    | (num, None) => (if starts_with "m" rest then f64_mul num milli else num, None)
    end.
Proof.
  unfold scale, scan_cpu_suffix, starts_with.
  destruct (ParseFloat lit) as [num [err|]]; [done|].
  destruct rest as [|b t]; [done|]. by destruct (Ascii.eqb "m" b).
Qed.

Lemma cpu_reads lit rest :
  is_literal lit → ends_literal rest = true →
  CpuToNumber (lit +:+ rest)
  = Ret (match ParseFloat lit with
         | (_, Some err) => (f64_zero, Some err)
         | (num, None) => (if starts_with "m" rest then f64_mul num milli else num, None)
         end).
Proof.
  intros Hlit Hrest. destruct (cpu_matches (lit +:+ rest)) as [later H].
  rewrite (scan_literal_stop _ _ Hlit Hrest) in H. cbn [fst snd] in H.
  unfold CpuToNumber. rewrite (convertResource_groups cpuParser _ _ _ _ _ H).
  by rewrite cpu_scale_known.
Qed.

Lemma cpu_ignores lit rest :
  is_literal lit → ends_literal rest = true → starts_with "m" rest = false →
  CpuToNumber (lit +:+ rest) = CpuToNumber lit.
Proof.
  intros Hlit Hrest Hm.
  pose proof (cpu_reads lit "" Hlit eq_refl) as H0. rewrite append_empty_r in H0.
  by rewrite (cpu_reads lit rest Hlit Hrest), Hm, H0.
Qed.

(** X6: [CpuToNumber] reads the numeric literal at the start of the text
    and an [m] right after it, and ignores whatever follows: a decimal
    point, a unit, any other text.  The result is the parsed literal, times
    [.001] when an [m] follows, or the error of the literal with zero. *)
Theorem CpuToNumber_reads_prefix (lit rest : string) :
  is_literal lit → ends_literal rest = true →
  CpuToNumber (lit +:+ rest)
  = Ret (match ParseFloat lit with
         | (_, Some err) => (f64_zero, Some err)
         | (num, None) => (if starts_with "m" rest then f64_mul num milli else num, None)
         end)
  ∧ (starts_with "m" rest = false → CpuToNumber (lit +:+ rest) = CpuToNumber lit).
Proof.
  intros Hlit Hrest. split; [by apply cpu_reads | by apply cpu_ignores].
Qed.

Lemma CpuToNumber_reads_prefix_witness :
  CpuToNumber ("2" +:+ ".75 cores") = CpuToNumber "2".
Proof.
  refine (proj2 (CpuToNumber_reads_prefix "2" ".75 cores" _ _) _).
  - by left.
  - done.
  - done.
Defined.

(** X7: a text that does not start with a digit is never a cpu quantity:
    [CpuToNumber] returns zero and the syntax error of parsing the empty
    literal. *)
Theorem CpuToNumber_needs_digit (s : string) :
  stops is_digit s →
  CpuToNumber s = Ret (f64_zero, Some (NumError "ParseFloat" "" ErrSyntax)).
Proof.
  intros Hs. destruct (cpu_matches s) as [later H].
  unfold CpuToNumber. rewrite (convertResource_groups cpuParser _ _ _ _ _ H).
  clear H later. f_equal. unfold scale, scan_literal.
  assert (span is_digit s = ("", s)) as Hspan.
  { destruct s as [|c s]; [done|]. simpl in *. by rewrite Hs. }
  rewrite Hspan. destruct s as [|b t]; [done|].
  destruct (Ascii.eqb "e" b) eqn:Hb.
  - apply Ascii.eqb_eq in Hb as <-.
    destruct (span is_digit t) as [d2 r3]. by cbn.
  - by rewrite Hspan.
Qed.

Lemma CpuToNumber_needs_digit_witness :
  CpuToNumber ".5" = Ret (f64_zero, Some (NumError "ParseFloat" "" ErrSyntax)).
Proof. apply (CpuToNumber_needs_digit ".5"). done. Defined.

End QuantityMore.

(** ** ParseFloat *)

Section ParseFloatFacts.

Lemma span_all p s : all_bytes p s = true → span p s = (s, "").
Proof.
  intros H. rewrite <- (append_empty_r s) at 1. by apply span_append.
Qed.

Lemma special_digit c s : is_digit c = true → strconv.special (String c s) = None.
Proof.
  intros H. destruct c as [[] [] [] [] [] [] [] []];
    first [by vm_compute in H | by vm_compute].
Qed.

Lemma remove_all_without c s : without c s = true → strings.remove_all c s = s.
Proof.
  unfold without. induction s as [|b s IH]; simpl; [done|].
  intros [Hb Hs]%andb_prop. apply negb_true_iff in Hb. by rewrite Hb, (IH Hs).
Qed.

Lemma IndexAny_none s chars :
  all_bytes (λ b, negb (strings.mem b chars)) s = true → strings.IndexAny s chars = (-1)%Z.
Proof.
  induction s as [|b s IH]; simpl; [done|].
  intros [Hb Hs]%andb_prop. apply negb_true_iff in Hb. by rewrite Hb, (IH Hs).
Qed.

Lemma all_bytes_impl (p q : ascii -> bool) s :
  (∀ c, p c = true → q c = true) → all_bytes p s = true → all_bytes q s = true.
Proof.
  intros Hpq. induction s as [|b s IH]; simpl; [done|].
  intros [Hb Hs]%andb_prop. by rewrite (Hpq _ Hb), (IH Hs).
Qed.

Lemma digit_plain c :
  is_digit c = true →
  negb (Ascii.eqb c ",") = true ∧ negb (strings.mem c "eE") = true.
Proof.
  intros H. destruct c as [[] [] [] [] [] [] [] []];
    first [by vm_compute in H | by vm_compute].
Qed.

(** A run of digits is read as the nearest binary64 of its number. *)
Lemma strconv_ParseFloat_digits d :
  d ≠ "" → all_bytes is_digit d = true → strconv.ParseFloat d = digits_float d.
Proof.
  intros Hne Hd. destruct d as [|c d]; [done|]. clear Hne.
  pose proof Hd as Hc. simpl in Hc. apply andb_prop in Hc as [Hc _].
  destruct (digit_unsigned c Hc) as [Hm Hp].
  unfold strconv.ParseFloat, digits_float.
  rewrite (special_digit c d Hc), (read_sign_unsigned _ _ Hm Hp), (span_all _ _ Hd).
  cbn [strconv.read_exponent is_empty andb String.length].
  rewrite append_empty_r. change (0 - Z.of_nat 0)%Z with 0%Z.
  by destruct (f64_is_inf _).
Qed.

Lemma ParseFloat_digits d :
  d ≠ "" → all_bytes is_digit d = true → ParseFloat d = digits_float d.
Proof.
  intros Hne Hd. unfold ParseFloat.
  rewrite (remove_all_without "," d), IndexAny_none.
  - rewrite (strconv_ParseFloat_digits d Hne Hd).
    by destruct (digits_float d) as [v [err|]].
  - eapply all_bytes_impl; [|exact Hd]. intros c Hc. by apply digit_plain.
  - eapply all_bytes_impl; [|exact Hd]. intros c Hc. by apply digit_plain.
Qed.

(** *** No text with a comma is accepted by strconv.ParseFloat *)

Lemma to_lower_comma c : Ascii.eqb (to_lower c) "," = Ascii.eqb c ",".
Proof. destruct c as [[] [] [] [] [] [] [] []]; by vm_compute. Qed.

Lemma lower_without_comma s : without "," (lower s) = without "," s.
Proof.
  unfold without. induction s as [|c s IH]; simpl; [done|].
  by rewrite to_lower_comma, IH.
Qed.

Lemma without_append c a b : without c (a +:+ b) = without c a && without c b.
Proof. apply all_bytes_append. Qed.

Lemma special_without_comma s v : strconv.special s = Some v → without "," s = true.
Proof.
  unfold strconv.special. intros H. rewrite <- lower_without_comma.
  repeat match type of H with
  | context [String.eqb (lower s) ?k] =>
      destruct (String.eqb_spec (lower s) k) as [->|_]; [done|]; simpl in H
  end.
  done.
Qed.

Lemma read_sign_comma s : without "," (read_sign s).2 = true → without "," s = true.
Proof.
  destruct s as [|c s]; [done|].
  destruct c as [[] [] [] [] [] [] [] []]; done.
Qed.

Lemma digits_without_comma d : all_bytes is_digit d = true → without "," d = true.
Proof.
  intros Hd. eapply all_bytes_impl; [|exact Hd]. intros c Hc. by apply digit_plain.
Qed.

Lemma span_digits_without_comma s :
  without "," s = without "," (span is_digit s).2.
Proof.
  destruct (span_spec is_digit s) as (Hs & Hd & _).
  rewrite Hs at 1. by rewrite without_append, (digits_without_comma _ Hd).
Qed.

Lemma read_exponent_without_comma s e :
  strconv.read_exponent s = Some e → without "," s = true.
Proof.
  unfold strconv.read_exponent. destruct s as [|c t]; [done|].
  destruct (Ascii.eqb (to_lower c) "e") eqn:Hc; [|done].
  destruct (read_sign t) as [neg t1] eqn:Hsign.
  destruct (span is_digit t1) as [ds t2] eqn:Hspan.
  destruct (is_empty ds || negb (is_empty t2)) eqn:He; [done|]. intros _.
  apply orb_false_iff in He as [_ He]. apply negb_false_iff in He.
  destruct t2; [|done].
  assert (without "," t1 = true) as H1.
  { rewrite span_digits_without_comma, Hspan. done. }
  assert (without "," t = true) as Ht.
  { apply read_sign_comma. by rewrite Hsign. }
  unfold without in *. simpl. rewrite Ht, andb_true_r.
  rewrite <- to_lower_comma. destruct (Ascii.eqb_spec (to_lower c) "e") as [->|]; done.
Qed.

Lemma strconv_rejects_comma s v :
  strconv.ParseFloat s = (v, None) → without "," s = true.
Proof.
  unfold strconv.ParseFloat.
  destruct (strconv.special s) as [w|] eqn:Hsp.
  { intros _. by eapply special_without_comma. }
  destruct (read_sign s) as [neg s1] eqn:Hsign.
  destruct (span is_digit s1) as [ip s2] eqn:Hspan.
  intros H. apply read_sign_comma. rewrite Hsign. cbn [snd].
  rewrite span_digits_without_comma, Hspan. cbn [snd].
  assert (∀ fp s3,
    (if is_empty ip && is_empty fp
     then (f64_zero, Some (NumError "ParseFloat" s ErrSyntax))
     else match strconv.read_exponent s3 with
          | Some e10 =>
              let v0 := f64_of_decimal neg (digits_value 0 (ip +:+ fp))
                          (e10 - Z.of_nat (String.length fp)) in
              if f64_is_inf v0 then (v0, Some (NumError "ParseFloat" s ErrRange))
              else (v0, None)
          | None => (f64_zero, Some (NumError "ParseFloat" s ErrSyntax))
          end) = (v, None) → without "," s3 = true) as Hexp.
  { intros fp s3. destruct (is_empty ip && is_empty fp); [done|].
    destruct (strconv.read_exponent s3) as [e10|] eqn:He; [|done].
    intros _. by eapply read_exponent_without_comma. }
  destruct s2 as [|c t]; [done|].
  destruct (Ascii.eqb_spec c ".") as [->|Hc].
  - destruct (span is_digit t) as [fp s3] eqn:Hfp.
    apply Hexp in H. unfold without. simpl. fold (without "," t).
    by rewrite span_digits_without_comma, Hfp.
  - assert ((match String c t with
             | String "."%char t0 => span is_digit t0
             | _ => ("", String c t)
             end) = ("", String c t)) as Hm.
    { destruct c as [[] [] [] [] [] [] [] []]; done. }
    rewrite Hm in H. by apply Hexp in H.
Qed.

(** X8: commas are no part of a number for [ParseFloat]: on a text
    without [e] and [E] it returns what [strconv.ParseFloat] returns on
    the text with its commas removed. *)
Theorem ParseFloat_ignores_commas (s : string) :
  without "e" s = true → without "E" s = true →
  ParseFloat s = strconv.ParseFloat (strings.remove_all "," s).
Proof.
  intros He HE. unfold ParseFloat.
  destruct (strconv.ParseFloat s) as [v [err|]] eqn:Hs.
  - rewrite IndexAny_none; [done|].
    clear Hs. unfold without in *. induction s as [|c s IH]; simpl in *; [done|].
    apply andb_prop in He as [Hc He]. apply andb_prop in HE as [HC HE].
    destruct (Ascii.eqb c ","); simpl; [by apply IH|].
    rewrite (IH He HE), andb_true_r. apply negb_true_iff in Hc, HC.
    by rewrite Hc, HC.
  - by rewrite (remove_all_without _ _ (strconv_rejects_comma _ _ Hs)), Hs.
Qed.

Lemma ParseFloat_ignores_commas_witness :
  ParseFloat "23,120,123" = strconv.ParseFloat "23120123".
Proof. by apply (ParseFloat_ignores_commas "23,120,123"). Defined.

End ParseFloatFacts.

(** ** Format checkers and parsers together *)

Section FormatAndParse.

Lemma memory_reads lit u :
  is_literal lit → u ∈ memory_suffixes →
  MemoryToNumber (lit +:+ u) = Ret (scale memoryParser (lit +:+ u) lit u).
Proof.
  intros Hlit Hu.
  destruct (memory_matches_greedy (lit +:+ u) u "") as [later H].
  { rewrite (scan_literal_suffix _ _ Hlit Hu). by apply scan_memory_suffix_self. }
  rewrite (scan_literal_suffix _ _ Hlit Hu) in H. cbn [fst snd] in H.
  unfold MemoryToNumber. by rewrite (convertResource_groups memoryParser _ _ _ _ _ H).
Qed.

(** X9: every text the memory checker accepts, one or more digits and a
    unit from [Ki] to [Pi], is read by [MemoryToNumber] as that number
    times the unit's power of 1024; the only error left is a number too
    large for a float64. *)
Theorem memory_format_parsed (d : string) (c : ascii) (k : Z) :
  d ≠ "" → all_bytes is_digit d = true →
  (c, k) ∈ [("K"%char, 1%Z); ("M"%char, 2%Z); ("G"%char, 3%Z); ("T"%char, 4%Z);
            ("P"%char, 5%Z)] →
  MemoryChecker_IsFormat (VString (d +:+ String c "i")) = true
  ∧ MemoryToNumber (d +:+ String c "i")
    = Ret (match digits_float d with
           | (_, Some err) => (f64_zero, Some err)
           | (num, None) => (f64_mul num (f64_of_Z (1024 ^ k)), None)
           end).
Proof.
  intros Hne Hd Hck. split.
  - unfold MemoryChecker_IsFormat, MiChecker, GiChecker, TiChecker, PiChecker, KiChecker.
    rewrite !elem_of_cons, elem_of_nil in Hck.
    assert (∀ a, in_class cls_digit a = false →
                 regexp.MatchString (anchored_units cls_digit a "i") (d +:+ String a "i")
                 = true) as Hmatch.
    { intros a Ha. apply MatchString_anchored_units; [done|]. by exists d. }
    destruct Hck as [[= -> ->]|[[= -> ->]|[[= -> ->]|[[= -> ->]|[[= -> ->]|[]]]]]];
      rewrite ?(Hmatch "K"%char eq_refl), ?(Hmatch "M"%char eq_refl),
        ?(Hmatch "G"%char eq_refl), ?(Hmatch "T"%char eq_refl),
        ?(Hmatch "P"%char eq_refl); by repeat case_match.
  - rewrite memory_reads; [|by left|].
    + f_equal. unfold scale. rewrite (ParseFloat_digits d Hne Hd).
      destruct (digits_float d) as [num [err|]]; [done|].
      rewrite !elem_of_cons, elem_of_nil in Hck.
      by destruct Hck as [[= -> ->]|[[= -> ->]|[[= -> ->]|[[= -> ->]|[[= -> ->]|[]]]]]].
    + unfold memory_suffixes. rewrite !elem_of_cons in *.
      destruct Hck as [[= -> ->]|[[= -> ->]|[[= -> ->]|[[= -> ->]|[[= -> ->]|Hnil]]]]];
        auto 20. by apply elem_of_nil in Hnil.
Qed.

Lemma memory_format_parsed_witness :
  MemoryToNumber ("512" +:+ "Mi")
  = Ret (f64_mul (f64_of_Z 512) (f64_of_Z (1024 ^ 2)), None).
Proof.
  refine (proj2 (memory_format_parsed "512" "M" 2 _ _ _)).
  - done.
  - done.
  - rewrite !elem_of_cons. auto.
Defined.

Lemma digit_in_digit_dot c : is_digit c = true → in_class cls_digit_dot c = true.
Proof.
  unfold is_digit, in_class, cls_digit, cls_digit_dot. simpl.
  intros H. apply orb_true_iff in H as [->|H]; [done|]. done.
Qed.

(** X10: the cpu checker accepts a decimal point, but [CpuToNumber] stops
    at it: a text of digits, a point and more digits or points, with or
    without a final [m], passes the check and is read as the digits before
    the first point alone. *)
Theorem cpu_fraction_lost (d frac : string) :
  all_bytes is_digit d = true → all_bytes (in_class cls_digit_dot) frac = true →
  CpuChecker_IsFormat (VString (d +:+ String "." frac)) = true
  ∧ CpuChecker_IsFormat (VString (d +:+ String "." (frac +:+ "m"))) = true
  ∧ CpuToNumber (d +:+ String "." frac) = CpuToNumber d
  ∧ CpuToNumber (d +:+ String "." (frac +:+ "m")) = CpuToNumber d.
Proof.
  intros Hd Hfrac.
  assert (all_bytes (in_class cls_digit_dot) (d +:+ String "." frac) = true) as Hall.
  { rewrite all_bytes_append. simpl.
    rewrite (all_bytes_impl _ _ _ digit_in_digit_dot Hd), Hfrac. done. }
  assert (d +:+ String "." frac ≠ "") as Hne by by destruct d.
  split; [|split; [|split]].
  - unfold CpuChecker_IsFormat.
    rewrite (proj2 (MatchString_NoCpuUnitChecker _)); [by case_match | done].
  - unfold CpuChecker_IsFormat.
    rewrite (proj2 (MatchString_CpuUnitChecker _)); [done|].
    exists (d +:+ String "." frac). split; [|done].
    by rewrite append_assoc.
  - by apply cpu_ignores; [left|..].
  - by apply cpu_ignores; [left|..].
Qed.

Lemma cpu_fraction_lost_witness :
  CpuChecker_IsFormat (VString ("1" +:+ String "." "5")) = true
  ∧ CpuToNumber ("1" +:+ String "." "5") = CpuToNumber "1".
Proof.
  destruct (cpu_fraction_lost "1" "5") as (H1 & _ & H3 & _); [done..|].
  by split.
Defined.

End FormatAndParse.

(** ** More on validation *)

Lemma fold_left_append {A} (f : A -> string) (l : list A) (acc : string) :
  fold_left (λ acc x, acc +:+ f x) l acc = acc +:+ concat_strings (map f l).
Proof.
  revert acc. induction l as [|x l IH]; intros acc; simpl.
  - by rewrite append_empty_r.
  - by rewrite IH, append_assoc.
Qed.

Lemma occurs_in_concat (x : string) (l : list string) :
  x ∈ l → occurs_in x (concat_strings l).
Proof.
  induction 1 as [x l|x y l _ (pre & post & IH)]; simpl.
  - by exists "", (concat_strings l).
  - exists (y +:+ pre), post. by rewrite IH, append_assoc.
Qed.

Section ValidationMore.

Variable schema_exists : string -> bool.
Variable load_schema : string -> value.
Variable json_Marshal : value -> option error.
Variable gojsonschema_Validate :
  list (string * (value -> bool)) -> value -> value -> Result * option error.

(** X11: a document the schema rejects gives ok=false and one message:
    the engine's errors in their order, one line each, where an error of
    the format [cpu] or [memory] is replaced by its field and the hint of
    that format. *)
Theorem schema_errors_rendered templatejson schemafile result :
  schema_exists schemafile = true →
  json_Marshal templatejson = None →
  gojsonschema_Validate FormatCheckers (load_schema schemafile) templatejson
  = (result, None) →
  Valid result = false →
  DeploymentTemplateValidate schema_exists load_schema json_Marshal
    gojsonschema_Validate templatejson schemafile
  = Ret (false, Some (ErrorString (concat_strings (map render_error (Errors result)))))
  ∧ ∀ err, err ∈ Errors result →
      (format err = Some "cpu" →
       occurs_in (Field err +:+ ": Format should be like " +:+ cpuPattern +:+ newline)
         (concat_strings (map render_error (Errors result))))
      ∧ (format err = Some "memory" →
         occurs_in (Field err +:+ ": Format should be like " +:+ memoryPattern +:+ newline)
           (concat_strings (map render_error (Errors result))))
      ∧ (format err ≠ Some "cpu" → format err ≠ Some "memory" →
         occurs_in (String_ err +:+ newline)
           (concat_strings (map render_error (Errors result)))).
Proof.
  intros Hex Hm Hv Hvalid. split.
  - unfold DeploymentTemplateValidate. rewrite Hex, Hm, Hv, Hvalid.
    by rewrite fold_left_append.
  - intros err Herr.
    assert (occurs_in (render_error err)
              (concat_strings (map render_error (Errors result)))) as Hocc.
    { apply occurs_in_concat, list_elem_of_fmap. by exists err. }
    unfold render_error, cpu, memory in Hocc. split; [|split].
    + intros Hf. by rewrite Hf in Hocc.
    + intros Hf. by rewrite Hf in Hocc.
    + intros Hc Hmem. by rewrite !bool_decide_eq_false_2 in Hocc.
Qed.

(** X12: with autoscaling enabled and the eight fields present, a field
    that is not a string (a number, say, which both format checkers
    accept) makes the call panic on its type assertion; [Autoscale] does
    the same. *)
Theorem non_string_field_panics dat am r schemafile :
  schema_valid schema_exists load_schema json_Marshal gojsonschema_Validate
    (VMap dat) schemafile →
  dat !! "autoscaling" = Some (VMap am) →
  am !! "enabled" = Some (VBool true) →
  has_values dat r → all_strings r = false →
  DeploymentTemplateValidate schema_exists load_schema json_Marshal
    gojsonschema_Validate (VMap dat) schemafile
  = Panic "interface conversion: interface {} is not string"
  ∧ Autoscale dat = Panic "interface conversion: interface {} is not string".
Proof.
  intros (Hex & Hm & result & Hv & Hvalid) Hauto Hflag
    (H1 & H2 & H3 & H4 & H5 & H6 & H7 & H8) Hr.
  destruct r as [w1 w2 w3 w4 w5 w6 w7 w8]. unfold all_strings in Hr.
  cbn [v_cpu_limit v_memory_limit v_cpu_request v_memory_request v_envoy_cpu_limit
       v_envoy_memory_limit v_envoy_cpu_request v_envoy_memory_request] in *.
  apply lookup_leaf3 in H1 as (lim & Bl & L1).
  apply lookup_leaf3 in H2 as (lim' & Bl' & L2).
  rewrite Bl in Bl'. injection Bl' as <-.
  apply lookup_leaf3 in H3 as (req & Br & L3).
  apply lookup_leaf3 in H4 as (req' & Br' & L4).
  rewrite Br in Br'. injection Br' as <-.
  apply lookup_leaf4 in H5 as (elim & Bel & L5).
  apply lookup_leaf4 in H6 as (elim' & Bel' & L6).
  rewrite Bel in Bel'. injection Bel' as <-.
  apply lookup_leaf4 in H7 as (ereq & Ber & L7).
  apply lookup_leaf4 in H8 as (ereq' & Ber' & L8).
  rewrite Ber in Ber'. injection Ber' as <-.
  apply lookup_map2 in Bl as (res & Hres & Hlim).
  apply lookup_map2 in Br as (res' & Hres' & Hreq).
  rewrite Hres in Hres'. injection Hres' as <-.
  apply lookup_map3 in Bel as (env & eres & Henv & Heres & Helim).
  apply lookup_map3 in Ber as (env' & eres' & Henv' & Heres' & Hereq).
  rewrite Henv in Henv'. injection Henv' as <-.
  rewrite Heres in Heres'. injection Heres' as <-.
  assert (∀ w1 w2 w3 w4 w5 w6 w7 w8,
    is_string w1 && is_string w2 && is_string w3 && is_string w4
    && is_string w5 && is_string w6 && is_string w7 && is_string w8 = false →
    ('(cpu_limit, _) ← (assert_string w1 ≫= CpuToNumber);
     '(memory_limit, _) ← (assert_string w2 ≫= MemoryToNumber);
     '(cpu_request, _) ← (assert_string w3 ≫= CpuToNumber);
     '(memory_request, _) ← (assert_string w4 ≫= MemoryToNumber);
     '(envoproxy_cpu_limit, _) ← (assert_string w5 ≫= CpuToNumber);
     '(envoproxy_memory_limit, _) ← (assert_string w6 ≫= MemoryToNumber);
     '(envoproxy_cpu_request, _) ← (assert_string w7 ≫= CpuToNumber);
     '(envoproxy_memory_request, _) ← (assert_string w8 ≫= MemoryToNumber);
     if f64_lt envoproxy_cpu_limit envoproxy_cpu_request
        || f64_lt envoproxy_memory_limit envoproxy_memory_request
        || f64_lt cpu_limit cpu_request
        || f64_lt memory_limit memory_request
     then Ret (false, Some (ErrorString "requests is greater than limits"))
     else Ret (true, None))
    = Panic "interface conversion: interface {} is not string") as Hpanic.
  { clear. intros w1 w2 w3 w4 w5 w6 w7 w8 Hr.
    destruct w1 as [| | |s1| |]; try done. simpl.
    destruct (CpuToNumber_returns s1) as (? & ? & ->). simpl.
    destruct w2 as [| | |s2| |]; try done. simpl.
    destruct (MemoryToNumber_returns s2) as (? & ? & ->). simpl.
    destruct w3 as [| | |s3| |]; try done. simpl.
    destruct (CpuToNumber_returns s3) as (? & ? & ->). simpl.
    destruct w4 as [| | |s4| |]; try done. simpl.
    destruct (MemoryToNumber_returns s4) as (? & ? & ->). simpl.
    destruct w5 as [| | |s5| |]; try done. simpl.
    destruct (CpuToNumber_returns s5) as (? & ? & ->). simpl.
    destruct w6 as [| | |s6| |]; try done. simpl.
    destruct (MemoryToNumber_returns s6) as (? & ? & ->). simpl.
    destruct w7 as [| | |s7| |]; try done. simpl.
    destruct (CpuToNumber_returns s7) as (? & ? & ->). simpl.
    destruct w8 as [| | |s8| |]; try done. }
  specialize (Hpanic w1 w2 w3 w4 w5 w6 w7 w8 Hr). split.
  - unfold DeploymentTemplateValidate. rewrite Hex, Hm, Hv, Hvalid. simpl.
    unfold path2. rewrite (map_index_lookup _ _ _ Hauto). simpl. rewrite Hflag. simpl.
    unfold require, path3, path4.
    reads Hres Hlim Hreq Henv Heres Helim Hereq L1 L2 L3 L4 L5 L6 L7 L8.
    exact Hpanic.
  - unfold Autoscale, require.
    reads Hres Hlim Hreq Henv Heres Helim Hereq L1 L2 L3 L4 L5 L6 L7 L8.
    exact Hpanic.
Qed.

(** X13: the check written inside [DeploymentTemplateValidate] and the
    stand-alone [Autoscale] are the same function of the document
    wherever the four limits and requests maps exist. *)
Theorem Autoscale_agrees dat am schemafile :
  schema_valid schema_exists load_schema json_Marshal gojsonschema_Validate
    (VMap dat) schemafile →
  dat !! "autoscaling" = Some (VMap am) →
  am !! "enabled" = Some (VBool true) →
  blocks_present dat →
  DeploymentTemplateValidate schema_exists load_schema json_Marshal
    gojsonschema_Validate (VMap dat) schemafile
  = Autoscale dat.
Proof.
  intros (Hex & Hm & result & Hv & Hvalid) Hauto Hflag
    (lim & req & elim & ereq & H1 & H2 & H3 & H4).
  apply lookup_map2 in H1 as (res & Hres & Hlim).
  apply lookup_map2 in H2 as (res' & Hres' & Hreq).
  rewrite Hres in Hres'. injection Hres' as <-.
  apply lookup_map3 in H3 as (env & eres & Henv & Heres & Helim).
  apply lookup_map3 in H4 as (env' & eres' & Henv' & Heres' & Hereq).
  rewrite Henv in Henv'. injection Henv' as <-.
  rewrite Heres in Heres'. injection Heres' as <-.
  unfold DeploymentTemplateValidate. rewrite Hex, Hm, Hv, Hvalid. simpl.
  unfold path2. rewrite (map_index_lookup _ _ _ Hauto). simpl. rewrite Hflag. simpl.
  unfold Autoscale, require, path3, path4.
  known_maps Hres Hlim Hreq Henv Heres Helim Hereq.
  destruct (lim !! "cpu") as [?|]; [|done].
  known_maps Hres Hlim Hreq Henv Heres Helim Hereq.
  destruct (lim !! "memory") as [?|]; [|done].
  known_maps Hres Hlim Hreq Henv Heres Helim Hereq.
  destruct (req !! "cpu") as [?|]; [|done].
  known_maps Hres Hlim Hreq Henv Heres Helim Hereq.
  destruct (req !! "memory") as [?|]; [|done].
  known_maps Hres Hlim Hreq Henv Heres Helim Hereq.
  destruct (elim !! "cpu") as [?|]; [|done].
  known_maps Hres Hlim Hreq Henv Heres Helim Hereq.
  destruct (elim !! "memory") as [?|]; [|done].
  known_maps Hres Hlim Hreq Henv Heres Helim Hereq.
  destruct (ereq !! "cpu") as [?|]; [|done].
  known_maps Hres Hlim Hreq Henv Heres Helim Hereq.
  destruct (ereq !! "memory") as [?|]; [|done].
  done.
Qed.

(** X14: [Autoscale] names the first of its four maps that is missing or
    is not a map, before it reads any field; where
    [DeploymentTemplateValidate] meets a [limits] that is not a map, it
    panics. *)
Theorem Autoscale_missing_map dat res env eres msg :
  dat !! "resources" = Some (VMap res) →
  dat !! "envoyproxy" = Some (VMap env) →
  env !! "resources" = Some (VMap eres) →
  first_not_map (required_blocks res eres) = Some msg →
  Autoscale dat = Ret (false, Some (ErrorString msg))
  ∧ (∀ am schemafile,
       schema_valid schema_exists load_schema json_Marshal gojsonschema_Validate
         (VMap dat) schemafile →
       dat !! "autoscaling" = Some (VMap am) →
       am !! "enabled" = Some (VBool true) →
       is_map (map_index res "limits") = false →
       DeploymentTemplateValidate schema_exists load_schema json_Marshal
         gojsonschema_Validate (VMap dat) schemafile
       = Panic "interface conversion: interface {} is not map[string]interface {}").
Proof.
  intros Hres Henv Heres Hfirst. split.
  - pose proof (map_index_lookup _ _ _ Hres) as M1.
    pose proof (map_index_lookup _ _ _ Henv) as M2.
    pose proof (map_index_lookup _ _ _ Heres) as M3.
    unfold required_blocks in Hfirst. unfold Autoscale, require.
    repeat first [rewrite M1 | rewrite M2 | rewrite M3 | progress simpl].
    destruct (map_index res "limits") as [| | | | |lim]; simpl in *;
      try by injection Hfirst as <-.
    repeat first [rewrite M1 | rewrite M2 | rewrite M3 | progress simpl].
    destruct (map_index res "requests") as [| | | | |req]; simpl in *;
      try by injection Hfirst as <-.
    repeat first [rewrite M1 | rewrite M2 | rewrite M3 | progress simpl].
    destruct (map_index eres "limits") as [| | | | |elim]; simpl in *;
      try by injection Hfirst as <-.
    repeat first [rewrite M1 | rewrite M2 | rewrite M3 | progress simpl].
    destruct (map_index eres "requests") as [| | | | |ereq]; simpl in *;
      try by injection Hfirst as <-.
    done.
  - intros am schemafile (Hex & Hm & result & Hv & Hvalid) Hauto Hflag Hlim.
    unfold DeploymentTemplateValidate. rewrite Hex, Hm, Hv, Hvalid. simpl.
    unfold path2. rewrite (map_index_lookup _ _ _ Hauto). simpl. rewrite Hflag. simpl.
    unfold require, path3. rewrite (map_index_lookup _ _ _ Hres). simpl.
    by destruct (map_index res "limits").
Qed.

End ValidationMore.

(** ** Further instances *)

Lemma schema_errors_rendered_witness :
  DeploymentTemplateValidate any_file no_schema marshals rejecting_engine
    (VMap ∅) "deployment"
  = Ret (false, Some (ErrorString
      ("resources.limits.cpu: Format should be like " +:+ cpuPattern +:+ newline
       +:+ "(root): image is required" +:+ newline))).
Proof.
  refine (proj1 (schema_errors_rendered any_file no_schema marshals rejecting_engine
           (VMap ∅) "deployment"
           {| Valid := false; Errors := [cpu_error; required_error] |} _ _ _ _));
    reflexivity.
Defined.

Lemma non_string_field_panics_witness :
  DeploymentTemplateValidate any_file no_schema marshals accept_all
    (VMap numeric_cpu_limit) "deployment"
  = Panic "interface conversion: interface {} is not string".
Proof.
  refine (proj1 (non_string_field_panics any_file no_schema marshals accept_all
           numeric_cpu_limit (list_to_map [("enabled", VBool true)])
           {| v_cpu_limit := VNumber (f64_of_Z 1); v_memory_limit := VString "1Gi";
              v_cpu_request := VString "1"; v_memory_request := VString "1Gi";
              v_envoy_cpu_limit := VString "1"; v_envoy_memory_limit := VString "1Gi";
              v_envoy_cpu_request := VString "1"; v_envoy_memory_request := VString "1Gi" |}
           "deployment" _ _ _ _ _)).
  - apply accept_all_valid.
  - by vm_compute.
  - by vm_compute.
  - by vm_compute.
  - by vm_compute.
Defined.

Lemma Autoscale_agrees_witness :
  DeploymentTemplateValidate any_file no_schema marshals accept_all
    (VMap (document_map true (resources (Some "1") (Some "1Gi") (Some "2") (Some "1Gi"))
             (resources (Some "1") (Some "1Gi") (Some "1") None))) "deployment"
  = Autoscale (document_map true (resources (Some "1") (Some "1Gi") (Some "2") (Some "1Gi"))
                 (resources (Some "1") (Some "1Gi") (Some "1") None)).
Proof.
  apply (Autoscale_agrees any_file no_schema marshals accept_all _
           (list_to_map [("enabled", VBool true)])).
  - apply accept_all_valid.
  - by vm_compute.
  - by vm_compute.
  - eexists _, _, _, _. repeat split; by vm_compute.
Defined.

Lemma Autoscale_missing_map_witness :
  Autoscale no_limits = Ret (false, Some (ErrorString "limit is required")).
Proof.
  refine (proj1 (Autoscale_missing_map any_file no_schema marshals accept_all no_limits
           (list_to_map [("requests", block (Some "1") (Some "1Gi"))])
           (list_to_map [("resources", resources (Some "1") (Some "1Gi") (Some "1") (Some "1Gi"))])
           (list_to_map [("limits", block (Some "1") (Some "1Gi"));
                         ("requests", block (Some "1") (Some "1Gi"))])
           "limit is required" _ _ _ _)).
  - by vm_compute.
  - by vm_compute.
  - by vm_compute.
  - by vm_compute.
Defined.

(** ** The sign of a parsed quantity *)

Section FloatFacts.

#[local] Open Scope Z_scope.

Lemma shr_1_half mrs : 0 <= shr_m mrs → shr_m (shr_1 mrs) = shr_m mrs / 2.
Proof.
  destruct mrs as [m r s]. simpl. intros Hm.
  destruct m as [|[p|p|]|p]; simpl; try done.
  - rewrite Pos2Z.inj_xI. apply Z.div_unique with 1; lia.
  - rewrite Pos2Z.inj_xO. apply Z.div_unique with 0; lia.
Qed.

Lemma iter_shr_1 p mrs :
  0 <= shr_m mrs → shr_m (SpecFloat.iter_pos shr_1 p mrs) = shr_m mrs / 2 ^ Z.pos p.
Proof.
  revert mrs. induction p as [p IH|p IH|]; intros mrs Hm; simpl.
  - assert (0 <= shr_m (shr_1 mrs)) as H1.
    { rewrite shr_1_half by done. apply Z.div_pos; lia. }
    assert (0 <= shr_m (SpecFloat.iter_pos shr_1 p (shr_1 mrs))) as H2.
    { rewrite IH by done. apply Z.div_pos; lia. }
    rewrite IH, IH, shr_1_half by done.
    rewrite !Z.div_div by lia. f_equal.
    replace (Z.pos p~1) with (1 + Z.pos p + Z.pos p) by lia.
    rewrite !Z.pow_add_r by lia. lia.
  - assert (0 <= shr_m (SpecFloat.iter_pos shr_1 p mrs)) as H2.
    { rewrite IH by done. apply Z.div_pos; lia. }
    rewrite IH, IH by done.
    rewrite !Z.div_div by lia. f_equal.
    replace (Z.pos p~0) with (Z.pos p + Z.pos p) by lia.
    by rewrite !Z.pow_add_r by lia.
  - rewrite shr_1_half by done. by rewrite Z.pow_1_r.
Qed.

Lemma shr_record_of_loc_m m l : shr_m (shr_record_of_loc m l) = m.
Proof. by destruct l as [|[]]. Qed.

Lemma shr_fexp_nonneg m e l :
  0 <= m → 0 <= shr_m (shr_fexp f64_prec f64_emax m e l).1.
Proof.
  intros Hm. unfold shr_fexp, shr.
  destruct (fexp _ _ _ - e) as [|p|p]; simpl; rewrite ?shr_record_of_loc_m; try done.
  rewrite iter_shr_1 by (by rewrite shr_record_of_loc_m).
  rewrite shr_record_of_loc_m. apply Z.div_pos; lia.
Qed.

Lemma round_nearest_even_le m l : m <= round_nearest_even m l.
Proof. destruct l as [|[]]; simpl; try lia. destruct (Z.even m); lia. Qed.

(** Rounding a nonnegative mantissa gives a zero, a finite number or an
    infinity of the given sign. *)
Lemma binary_round_aux_sign sx m e l :
  0 <= m →
  match binary_round_aux f64_prec f64_emax sx m e l with
  | S754_zero s | S754_infinity s | S754_finite s _ _ => s = sx
  | S754_nan => False
  end.
Proof.
  intros Hm. unfold binary_round_aux.
  pose proof (shr_fexp_nonneg m e l Hm) as H1.
  destruct (shr_fexp f64_prec f64_emax m e l) as [mrs' e'] eqn:E1. simpl in H1.
  pose proof (round_nearest_even_le (shr_m mrs') (loc_of_shr_record mrs')) as Hr.
  pose proof (shr_fexp_nonneg (round_nearest_even (shr_m mrs') (loc_of_shr_record mrs'))
                e' loc_Exact ltac:(lia)) as H2.
  destruct (shr_fexp f64_prec f64_emax _ e' loc_Exact) as [mrs'' e''] eqn:E2.
  simpl in H2. destruct (shr_m mrs'') as [|q|q]; [done| |lia].
  by destruct (e'' <=? _).
Qed.

Lemma digits2_lower p : 2 ^ (Z.pos (digits2_pos p) - 1) <= Z.pos p.
Proof.
  induction p as [p IH|p IH|]; cbn [digits2_pos]; [| |done].
  - rewrite Pos2Z.inj_succ.
    replace (Z.succ (Z.pos (digits2_pos p)) - 1) with (Z.succ (Z.pos (digits2_pos p) - 1)) by lia.
    rewrite Z.pow_succ_r by lia. lia.
  - rewrite Pos2Z.inj_succ.
    replace (Z.succ (Z.pos (digits2_pos p)) - 1) with (Z.succ (Z.pos (digits2_pos p) - 1)) by lia.
    rewrite Z.pow_succ_r by lia. lia.
Qed.

(** Above the least exponent a positive mantissa is not shifted away. *)
Lemma shr_fexp_pos p e l :
  -1074 <= e →
  0 < shr_m (shr_fexp f64_prec f64_emax (Z.pos p) e l).1
  ∧ -1074 <= (shr_fexp f64_prec f64_emax (Z.pos p) e l).2.
Proof.
  intros He. unfold shr_fexp, shr. cbn [Zdigits2].
  pose proof (digits2_lower p) as Hd.
  assert (fexp f64_prec f64_emax (Z.pos (digits2_pos p) + e) - e
          <= Z.pos (digits2_pos p) - 1) as Hn.
  { unfold fexp, emin, f64_prec, f64_emax. lia. }
  destruct (fexp _ _ _ - e) as [|n|n] eqn:En; simpl; rewrite ?shr_record_of_loc_m;
    try (split; lia).
  rewrite iter_shr_1 by (rewrite shr_record_of_loc_m; lia).
  rewrite shr_record_of_loc_m. split; [|lia].
  apply Z.div_str_pos. split; [apply Z.pow_pos_nonneg; lia|].
  etrans; [|exact Hd]. apply Z.pow_le_mono_r; lia.
Qed.

Lemma binary_round_aux_pos p e l :
  -1074 <= e →
  f64_positive (binary_round_aux f64_prec f64_emax false (Z.pos p) e l) = true.
Proof.
  intros He. unfold binary_round_aux.
  destruct (shr_fexp_pos p e l He) as [H1 He'].
  destruct (shr_fexp f64_prec f64_emax (Z.pos p) e l) as [mrs' e'] eqn:E1.
  simpl in H1, He'.
  pose proof (round_nearest_even_le (shr_m mrs') (loc_of_shr_record mrs')) as Hr.
  destruct (round_nearest_even (shr_m mrs') (loc_of_shr_record mrs')) as [|q|q] eqn:Eq;
    [lia| |lia].
  destruct (shr_fexp_pos q e' loc_Exact He') as [H2 _].
  destruct (shr_fexp f64_prec f64_emax (Z.pos q) e' loc_Exact) as [mrs'' e''] eqn:E2.
  simpl in H2. destruct (shr_m mrs'') as [|q'|q']; [lia| |lia].
  by destruct (e'' <=? _).
Qed.

Lemma binary_round_pos p :
  f64_positive (binary_round f64_prec f64_emax false p 0) = true.
Proof.
  unfold binary_round, shl_align.
  destruct (fexp f64_prec f64_emax (Z.pos (digits2_pos p) + 0) - 0) as [|n|n] eqn:En;
    try (apply binary_round_aux_pos; lia).
  apply binary_round_aux_pos. unfold fexp, emin, f64_prec, f64_emax. lia.
Qed.

Lemma f64_positive_nonneg x : f64_positive x = true → f64_nonneg x = true.
Proof. by destruct x as [[]|[]| |[] ? ?]. Qed.

Lemma f64_sign_nonneg x :
  match x with
  | S754_zero s | S754_infinity s | S754_finite s _ _ => s = false
  | S754_nan => False
  end → f64_nonneg x = true.
Proof. by destruct x as [[]|[]| |[] ? ?]. Qed.

(** A digit string with a nonnegative power of ten is positive. *)
Lemma f64_of_decimal_pos p e :
  0 <= e → f64_positive (f64_of_decimal false (Z.pos p) e) = true.
Proof.
  intros He. unfold f64_of_decimal. rewrite (proj2 (Z.leb_le 0 e) He).
  assert (0 < Z.pos p * 10 ^ e) as Hpos by (apply Z.mul_pos_pos; [lia | apply Z.pow_pos_nonneg; lia]).
  destruct (Z.pos p * 10 ^ e) as [|q|q]; [lia| |lia].
  apply binary_round_pos.
Qed.

Lemma f64_div_nonneg m1 e1 m2 e2 :
  f64_nonneg (f64_div (S754_finite false m1 e1) (S754_finite false m2 e2)) = true.
Proof.
  unfold f64_div, SFdiv, SFdiv_core_binary.
  set (e' := Z.min _ _). set (m' := match _ - e' with Z0 => _ | _ => _ end).
  assert (0 <= m') as Hm'.
  { unfold m'. destruct (e1 - e2 - e'); [lia| |lia]. apply Z.shiftl_nonneg. lia. }
  pose proof (Z_div_mod m' (Z.pos m2) ltac:(lia)) as Hdiv.
  destruct (Z.div_eucl m' (Z.pos m2)) as [q r]. destruct Hdiv as [Hq Hr].
  apply f64_sign_nonneg, binary_round_aux_sign. nia.
Qed.

(** What a decimal text without a sign converts to is never negative and
    never a NaN. *)
Lemma f64_of_decimal_nonneg m e : f64_nonneg (f64_of_decimal false m e) = true.
Proof.
  destruct m as [|p|p]; [done| |done].
  destruct (Z.leb_spec 0 e) as [He|He].
  - by apply f64_positive_nonneg, f64_of_decimal_pos.
  - unfold f64_of_decimal. rewrite (proj2 (Z.leb_gt 0 e) He). apply f64_div_nonneg.
Qed.

Lemma f64_mul_nonneg_finite x m e :
  f64_nonneg x = true → f64_nonneg (f64_mul x (S754_finite false m e)) = true.
Proof.
  destruct x as [[]|[]| |[] mx ex]; try done. intros _.
  apply f64_sign_nonneg. unfold f64_mul, SFmul. by apply binary_round_aux_sign.
Qed.

Lemma f64_mul_finite_nonneg m e y :
  f64_nonneg y = true → f64_nonneg (f64_mul (S754_finite false m e) y) = true.
Proof.
  destruct y as [[]|[]| |[] my ey]; try done. intros _.
  apply f64_sign_nonneg. unfold f64_mul, SFmul. by apply binary_round_aux_sign.
Qed.

(** On numbers that are not negative and not NaN, [<] is the negation of
    the converse [<=]. *)
Lemma f64_lt_le x y :
  f64_nonneg x = true → f64_nonneg y = true → f64_lt x y = negb (f64_le y x).
Proof.
  unfold f64_lt, f64_le, SFltb, SFleb.
  destruct x as [[]|[]| |[] mx ex], y as [[]|[]| |[] my ey]; try done. intros _ _.
  simpl. rewrite (Z.compare_antisym ex ey).
  destruct (ex ?= ey) eqn:E; simpl; try done.
  change (Pos.compare_cont Eq my mx) with (Pos.compare_cont (CompOpp Eq) my mx).
  rewrite <- (Pos.compare_cont_antisym mx my Eq).
  by destruct (Pos.compare_cont Eq mx my).
Qed.

End FloatFacts.

Section SignFacts.

Lemma Pow10_nonneg n : f64_nonneg (math.Pow10 n) = true.
Proof.
  destruct (decide (-323 ≤ n ≤ 308)%Z) as [Hn|Hn].
  - assert (forallb (λ k, f64_nonneg (math.Pow10 (Z.of_nat k - 323)))
              (seq 0 632) = true) as H by (by vm_compute).
    rewrite forallb_forall in H. specialize (H (Z.to_nat (n + 323))).
    rewrite Z2Nat.id in H by lia. replace (n + 323 - 323)%Z with n in H by lia.
    apply H, in_seq. lia.
  - unfold math.Pow10.
    destruct (Z.leb_spec 0 n), (Z.leb_spec n 308), (Z.leb_spec (-323) n),
      (Z.leb_spec n 0), (Z.ltb_spec 0 n); simpl; try done; lia.
Qed.

Lemma special_e s : strconv.special (String "e" s) = None.
Proof. done. Qed.

Lemma strconv_nonneg_plain s :
  plain s = true → f64_nonneg (strconv.ParseFloat s).1 = true.
Proof.
  intros Hs.
  assert (strconv.special s = None ∧ read_sign s = (false, s)) as [Hsp Hsign].
  { destruct s as [|c t]; [done|]. simpl in Hs.
    apply orb_prop in Hs as [Hc|Hc].
    - destruct (digit_unsigned c Hc). by rewrite special_digit, read_sign_unsigned.
    - apply Ascii.eqb_eq in Hc as ->. split; [apply special_e | done]. }
  unfold strconv.ParseFloat. rewrite Hsp, Hsign.
  destruct (span is_digit s) as [ip s2].
  destruct (match s2 with String "." t => span is_digit t | _ => ("", s2) end) as [fp s3].
  destruct (is_empty ip && is_empty fp); [done|].
  destruct (strconv.read_exponent s3) as [e10|]; [|done].
  pose proof (f64_of_decimal_nonneg (digits_value 0 (ip +:+ fp))
                (e10 - Z.of_nat (String.length fp))) as Hv.
  by destruct (f64_is_inf _).
Qed.

Lemma literal_plain lit : is_literal lit → plain lit = true.
Proof.
  intros [Hd | (d1 & d2 & -> & Hd1 & _)].
  - destruct lit as [|c t]; [done|]. simpl in *.
    apply andb_prop in Hd as [-> _]. done.
  - destruct d1 as [|c t]; [done|]. simpl in *.
    apply andb_prop in Hd1 as [-> _]. done.
Qed.

Lemma literal_without_comma lit : is_literal lit → without "," lit = true.
Proof.
  intros [Hd | (d1 & d2 & -> & Hd1 & Hd2)].
  - by apply digits_without_comma.
  - by rewrite !without_append, (digits_without_comma d1 Hd1),
      (digits_without_comma d2 Hd2).
Qed.

Lemma IndexAny_e d rest :
  all_bytes is_digit d = true →
  strings.IndexAny (d +:+ String "e" rest) "eE" = Z.of_nat (String.length d).
Proof.
  induction d as [|c d IH]; [done|]. intros [Hc Hd]%andb_prop.
  cbn [String.append strings.IndexAny String.length].
  destruct (digit_plain c Hc) as [_ Hm]. apply negb_true_iff in Hm. rewrite Hm.
  rewrite (IH Hd). destruct (Z.ltb_spec (Z.of_nat (String.length d)) 0); lia.
Qed.

Lemma substring_all s : substring 0 (String.length s) s = s.
Proof. induction s as [|c s IH]; simpl; [done | by rewrite IH]. Qed.

Lemma substring_before a b : substring 0 (String.length a) (a +:+ b) = a.
Proof.
  induction a as [|c a IH]; simpl; [by destruct b | by rewrite IH].
Qed.

Lemma substring_after a c b :
  substring (String.length a + 1)
    (String.length (a +:+ String c b) - (String.length a + 1)) (a +:+ String c b) = b.
Proof.
  induction a as [|x a IH]; simpl.
  - rewrite Nat.sub_0_r. apply substring_all.
  - apply IH.
Qed.

(** Digits, [e], digits: the nearest binary64 of the number written. *)
Lemma strconv_ParseFloat_sci d1 d2 :
  d1 ≠ "" → d2 ≠ "" → all_bytes is_digit d1 = true → all_bytes is_digit d2 = true →
  strconv.ParseFloat (d1 +:+ String "e" d2)
  = let v := f64_of_decimal false (digits_value 0 d1) (digits_value 0 d2) in
    if f64_is_inf v
    then (v, Some (NumError "ParseFloat" (d1 +:+ String "e" d2) ErrRange))
    else (v, None).
Proof.
  intros Hne1 Hne2 Hd1 Hd2.
  destruct d1 as [|c d1]; [done|]. destruct d2 as [|c2 d2]; [done|]. clear Hne1 Hne2.
  pose proof Hd1 as Hc. simpl in Hc. apply andb_prop in Hc as [Hc _].
  pose proof Hd2 as Hc2. simpl in Hc2. apply andb_prop in Hc2 as [Hc2 _].
  destruct (digit_unsigned c Hc) as [Hm Hp].
  destruct (digit_unsigned c2 Hc2) as [Hm2 Hp2].
  unfold strconv.ParseFloat.
  change (String c d1 +:+ String "e" (String c2 d2))
    with (String c (d1 +:+ String "e" (String c2 d2))).
  rewrite (special_digit c _ Hc), (read_sign_unsigned _ _ Hm Hp).
  change (String c (d1 +:+ String "e" (String c2 d2)))
    with (String c d1 +:+ String "e" (String c2 d2)).
  rewrite (span_append is_digit (String c d1) (String "e" (String c2 d2)) Hd1) by done.
  cbn [is_empty andb String.length].
  unfold strconv.read_exponent. change (Ascii.eqb (to_lower "e") "e") with true. cbv iota.
  rewrite (read_sign_unsigned _ _ Hm2 Hp2), (span_all _ _ Hd2).
  cbn [is_empty orb negb]. cbv iota.
  rewrite append_empty_r. change (Z.of_nat 0) with 0%Z. rewrite Z.sub_0_r.
  by destruct (f64_is_inf _).
Qed.

(** The number of a literal of the quantity grammar is never negative and
    never a NaN. *)
Lemma ParseFloat_literal_nonneg lit :
  is_literal lit → f64_nonneg (ParseFloat lit).1 = true.
Proof.
  intros Hlit. pose proof (literal_plain lit Hlit) as Hplain.
  pose proof (strconv_nonneg_plain lit Hplain) as Hstr.
  unfold ParseFloat.
  destruct (strconv.ParseFloat lit) as [val [err|]] eqn:E; [|done].
  rewrite (remove_all_without "," lit (literal_without_comma lit Hlit)).
  destruct Hlit as [Hd | (d1 & d2 & -> & Hd1 & Hd2)].
  { rewrite IndexAny_none.
    - change (-1 <? 0)%Z with true. cbv iota. by rewrite E.
    - eapply all_bytes_impl; [|exact Hd]. intros c Hc. by apply digit_plain. }
  change (d1 +:+ "e" +:+ d2) with (d1 +:+ String "e" d2) in *.
  rewrite (IndexAny_e d1 d2 Hd1).
  destruct (Z.ltb_spec (Z.of_nat (String.length d1)) 0) as [?|_]; [lia|].
  unfold slice. rewrite Nat2Z.id, Nat.sub_0_r, substring_before.
  replace (Z.to_nat (Z.of_nat (String.length d1) + 1)) with (String.length d1 + 1)%nat by lia.
  rewrite substring_after.
  destruct (strconv.ParseFloat d1) as [bv [e1|]] eqn:E1; [done|].
  destruct (strconv.ParseInt d2) as [ev [e2|]] eqn:E2; [done|].
  cbn [fst].
  destruct (decide (d1 = "")) as [->|Hne1]; [by vm_compute in E1|].
  destruct (decide (d2 = "")) as [->|Hne2]; [by vm_compute in E2|].
  rewrite (strconv_ParseFloat_sci d1 d2 Hne1 Hne2 Hd1 Hd2) in E.
  rewrite (strconv_ParseFloat_digits d1 Hne1 Hd1) in E1. unfold digits_float in E1.
  cbv zeta in E.
  destruct (digits_value 0 d1) as [|p|p]; [done| |done].
  pose proof (f64_of_decimal_pos p 0 ltac:(lia)) as Hpos.
  destruct (f64_of_decimal false (Z.pos p) 0) as [[]|[]| |[] mb eb]; try done.
  injection E1 as <-. apply f64_mul_finite_nonneg, Pow10_nonneg.
Qed.

Lemma scan_literal_is_literal s : is_literal (scan_literal s).1.
Proof.
  unfold scan_literal.
  destruct (span_spec is_digit s) as (_ & Hd1 & _).
  destruct (span is_digit s) as [d1 r1]. cbn [fst] in Hd1.
  destruct r1 as [|b t].
  - left. simpl. by rewrite !append_empty_r.
  - destruct (Ascii.eqb "e" b).
    + destruct (span_spec is_digit t) as (_ & Hd2 & _).
      destruct (span is_digit t) as [d2 r3]. right. by exists d1, d2.
    + destruct (span_spec is_digit (String b t)) as (_ & Hd2 & _).
      destruct (span is_digit (String b t)) as [d2 r3]. left. cbn [fst] in *.
      change (d1 +:+ "" +:+ d2) with (d1 +:+ d2).
      by rewrite all_bytes_append, Hd1, Hd2.
Qed.

Lemma scale_nonneg rp s lit unit :
  is_literal lit →
  (∀ f, conversions rp !! unit = Some f → ∃ m e, f = S754_finite false m e) →
  f64_nonneg (scale rp s lit unit).1 = true.
Proof.
  intros Hlit Hconv. unfold scale.
  pose proof (ParseFloat_literal_nonneg lit Hlit) as Hnum.
  destruct (ParseFloat lit) as [num [err|]]; [done|]. cbn [fst] in Hnum.
  destruct (is_empty unit); [done|].
  destruct (conversions rp !! unit) as [f|]; [|done].
  destruct (Hconv f eq_refl) as (m & e & ->). by apply f64_mul_nonneg_finite.
Qed.

Lemma cpu_conversions_finite unit f :
  conversions cpuParser !! unit = Some f → ∃ m e, f = S754_finite false m e.
Proof.
  intros H%elem_of_list_to_map_2. apply list_elem_of_singleton in H.
  apply (f_equal snd) in H. cbn [snd] in H. subst f.
  eexists _, _. vm_compute. reflexivity.
Qed.

Lemma memory_conversions_finite unit f :
  conversions memoryParser !! unit = Some f → ∃ m e, f = S754_finite false m e.
Proof.
  intros H%elem_of_list_to_map_2. cbn [conversions memoryParser] in H.
  repeat (apply elem_of_cons in H as [H|H];
          [apply (f_equal snd) in H; cbn [snd] in H; subst f;
           eexists _, _; vm_compute; reflexivity|]).
  by apply elem_of_nil in H.
Qed.

Lemma CpuToNumber_nonneg s : f64_nonneg (value_of (CpuToNumber s)) = true.
Proof.
  destruct (cpu_matches s) as [later H]. unfold CpuToNumber.
  rewrite (convertResource_groups cpuParser _ _ _ _ _ H).
  destruct (scale _ _ _ _) as [v e] eqn:E.
  change v with (v, e).1. rewrite <- E.
  apply scale_nonneg; [apply scan_literal_is_literal | apply cpu_conversions_finite].
Qed.

Lemma MemoryToNumber_nonneg s : f64_nonneg (value_of (MemoryToNumber s)) = true.
Proof.
  destruct (memory_matches s) as (lit & u & later & Hlit & _ & H). unfold MemoryToNumber.
  rewrite (convertResource_groups memoryParser _ _ _ _ _ H).
  destruct (scale _ _ _ _) as [v e] eqn:E.
  change v with (v, e).1. rewrite <- E.
  apply scale_nonneg; [done | apply memory_conversions_finite].
Qed.

(** X15: whatever the text, the two parsers give [+0], a positive finite
    number or [+Inf]: never a negative number, the patterns have no sign,
    and never a NaN. *)
Theorem quantities_never_negative (s : string) :
  f64_nonneg (value_of (CpuToNumber s)) = true
  ∧ f64_nonneg (value_of (MemoryToNumber s)) = true.
Proof. split; [apply CpuToNumber_nonneg | apply MemoryToNumber_nonneg]. Qed.

Lemma violated_within r : violated r = negb (within_limits r).
Proof.
  unfold violated, within_limits.
  rewrite !f64_lt_le by first [apply CpuToNumber_nonneg | apply MemoryToNumber_nonneg].
  by rewrite !negb_andb.
Qed.

End SignFacts.

Section ValidationSign.

Variable schema_exists : string -> bool.
Variable load_schema : string -> value.
Variable json_Marshal : value -> option error.
Variable gojsonschema_Validate :
  list (string * (value -> bool)) -> value -> value -> Result * option error.

(** X16: with autoscaling enabled and the eight strings present, the
    document passes exactly when each of the four requests is at most its
    limit; no parsed quantity is a NaN, which would pass every comparison.
    [Autoscale] likewise. *)
Theorem passes_iff_within_limits dat am r schemafile :
  schema_valid schema_exists load_schema json_Marshal gojsonschema_Validate
    (VMap dat) schemafile →
  dat !! "autoscaling" = Some (VMap am) →
  am !! "enabled" = Some (VBool true) →
  has_strings dat r →
  (DeploymentTemplateValidate schema_exists load_schema json_Marshal
     gojsonschema_Validate (VMap dat) schemafile = Ret (true, None)
   ↔ within_limits r = true)
  ∧ (Autoscale dat = Ret (true, None) ↔ within_limits r = true).
Proof.
  intros Hvalid Hauto Hflag Hr.
  destruct (compared schema_exists load_schema json_Marshal gojsonschema_Validate
              dat r Hr) as [Ha Hv].
  rewrite Ha, (Hv am schemafile Hvalid Hauto Hflag), violated_within.
  by destruct (within_limits r).
Qed.

End ValidationSign.

Lemma passes_iff_within_limits_witness :
  DeploymentTemplateValidate any_file no_schema marshals accept_all
    (VMap (document_map true (resources (Some "1") (Some "2G") (Some "900m") (Some "1Gi"))
             (resources (Some "50m") (Some "100Mi") (Some "50m") (Some "1e2Ki"))))
    "deployment"
  = Ret (true, None).
Proof.
  refine (proj2 (proj1 (passes_iff_within_limits any_file no_schema marshals accept_all
           (document_map true (resources (Some "1") (Some "2G") (Some "900m") (Some "1Gi"))
              (resources (Some "50m") (Some "100Mi") (Some "50m") (Some "1e2Ki")))
           (list_to_map [("enabled", VBool true)])
           {| cpu_limit := "1"; memory_limit := "2G";
              cpu_request := "900m"; memory_request := "1Gi";
              envoy_cpu_limit := "50m"; envoy_memory_limit := "100Mi";
              envoy_cpu_request := "50m"; envoy_memory_request := "1e2Ki" |}
           "deployment" _ _ _ _)) _).
  - apply accept_all_valid.
  - by vm_compute.
  - by vm_compute.
  - by vm_compute.
  - by vm_compute.
Defined.

(** ** Where a quantity starts *)

Section ShiftFacts.
Import regexp.

Lemma same_match_or (a a' b b' : option match_result) :
  same_match a b → same_match a' b' →
  same_match (match a with Some x => Some x | None => a' end)
             (match b with Some x => Some x | None => b' end).
Proof. by destruct a, b. Qed.

Lemma star_cons {R} cls a s pos (k : string -> nat -> string -> option R) :
  star cls (String a s) pos k
  = if in_class cls a then
      match star cls s (S pos) (λ m, k (String a m)) with
      | Some r => Some r
      | None => k "" pos (String a s)
      end
    else k "" pos (String a s).
Proof. done. Qed.

Lemma star_shift cls s pos pos' (k k' : string -> nat -> string -> option match_result) :
  (∀ m p p' s', same_match (k m p s') (k' m p' s')) →
  same_match (star cls s pos k) (star cls s pos' k').
Proof.
  revert pos pos' k k'. induction s as [|a s IH]; intros pos pos' k k' Hk.
  - apply Hk.
  - rewrite !star_cons. destruct (in_class cls a); [|apply Hk].
    apply same_match_or; [|apply Hk]. apply IH. intros m p p' s'. apply Hk.
Qed.

Lemma mtch_shift r :
  unanchored r = true →
  ∀ s pos pos' c (k k' : string -> nat -> string -> caps -> option match_result),
    (∀ m p p' s' c', same_match (k m p s' c') (k' m p' s' c')) →
    same_match (mtch r s pos c k) (mtch r s pos' c k').
Proof.
  induction r as [a|cls|cls|cls|r1 IH1|r1 IH1 r2 IH2|r1 IH1 r2 IH2|i r1 IH1| |];
    intros Hr s pos pos' c k k' Hk; simpl in *.
  - destruct s as [|b s']; [done|]. destruct (Ascii.eqb a b); [apply Hk | done].
  - destruct s as [|b s']; [done|]. destruct (in_class cls b); [apply Hk | done].
  - apply star_shift. intros m p p' s'. apply Hk.
  - destruct s as [|b s']; [done|]. destruct (in_class cls b); [|done].
    apply star_shift. intros m p p' s''. apply Hk.
  - apply same_match_or; [by apply IH1 | apply Hk].
  - apply andb_prop in Hr as [Hr1 Hr2]. apply IH1; [done|].
    intros m1 p1 p1' s1 c1. apply IH2; [done|]. intros m2 p2 p2' s2 c2. apply Hk.
  - apply andb_prop in Hr as [Hr1 Hr2].
    apply same_match_or; [by apply IH1 | by apply IH2].
  - apply IH1; [done|]. intros m p p' s' c'. apply Hk.
  - done.
  - destruct s; [apply Hk | done].
Qed.

(** Without [^] the leftmost match is the same wherever the text is
    taken to start. *)
Lemma search_shift re s pos pos' :
  unanchored re = true → same_match (search re s pos) (search re s pos').
Proof.
  intros Hre. revert pos pos'.
  assert (∀ s pos pos', same_match (match_at re s pos) (match_at re s pos')) as Hat.
  { intros s' pos pos'. unfold match_at. by apply mtch_shift. }
  induction s as [|a s IH]; intros pos pos'; simpl.
  - apply same_match_or; [apply Hat | done].
  - apply same_match_or; [apply Hat | apply IH].
Qed.

Lemma memory_suffix_starts {R} s pos c (k : string -> nat -> string -> caps -> option R) r :
  mtch memory_suffix_re s pos c k = Some r →
  match s with String b _ => strings.mem b unit_letters = true | "" => True end.
Proof.
  unfold memory_suffix_re. rewrite group_unfold. intros H.
  repeat (apply alt_sound in H as [H|H];
    [ by apply unit_sound in H as (u & s' & p & -> & [-> | ->] & Hk) | ]).
  simpl in H. by destruct s.
Qed.

(** No match of the memory pattern starts at a byte that is not a digit,
    an [e] or a unit letter. *)
Lemma memory_match_at_none c s pos :
  starts_quantity c = false → match_at (regex memoryParser) (String c s) pos = None.
Proof.
  intros Hc. apply orb_false_elim in Hc as [Hc Hunit].
  destruct (match_at _ _ _) as [m|] eqn:Hm; [exfalso | done].
  unfold match_at in Hm. cbn [regex memoryParser] in Hm. rewrite cat_unfold in Hm.
  apply literal_sound in Hm as (lit & s' & p & Hs & Hlit & H).
  apply memory_suffix_starts in H. apply literal_plain in Hlit.
  destruct lit as [|a lit].
  - simpl in Hs. subst s'. by rewrite Hunit in H.
  - simpl in Hs. injection Hs as <- _. simpl in Hlit. by rewrite Hc in Hlit.
Qed.

Lemma scale_resource rp s s' lit unit :
  unit = "" ∨ is_Some (conversions rp !! unit) →
  scale rp s lit unit = scale rp s' lit unit.
Proof.
  intros Hu. unfold scale. destruct (ParseFloat lit) as [num [err|]]; [done|].
  destruct Hu as [->|[f ->]]; [done|]. done.
Qed.

(** X17: [MemoryToNumber] skips what stands before the quantity: leading
    bytes that are not a digit, an [e] or a unit letter, a sign among
    them, do not change the result. *)
Theorem MemoryToNumber_skips_prefix (pre s : string) :
  all_bytes (λ c, negb (starts_quantity c)) pre = true →
  MemoryToNumber (pre +:+ s) = MemoryToNumber s.
Proof.
  induction pre as [|c pre IH]; [done|]. intros [Hc Hpre]%andb_prop.
  apply negb_true_iff in Hc. rewrite <- (IH Hpre).
  change (String c pre +:+ s) with (String c (pre +:+ s)).
  generalize (pre +:+ s). clear IH Hpre pre s. intros s.
  destruct (memory_search_total s 0) as [m Hm].
  pose proof (search_shift (regex memoryParser) s 1 0 eq_refl) as Hshift.
  rewrite Hm in Hshift.
  destruct (search (regex memoryParser) s 1) as [m1|] eqn:Hm1; [|done].
  destruct Hshift as [Ht Hcaps].
  assert (search (regex memoryParser) (String c s) 0 = Some m1) as Hm0.
  { cbn [search]. by rewrite (memory_match_at_none c s 0 Hc). }
  destruct (search_sound _ _ _ _ Hm) as (pre & suf & _ & Hat).
  apply memory_match_sound in Hat as (lit & u & Hlit & Hu & Htext & Hc2).
  apply FindAllStringSubmatch_head in Hm as [later Hall].
  apply FindAllStringSubmatch_head in Hm0 as [later0 Hall0].
  rewrite (submatches_two (regex memoryParser) m (lit +:+ u) lit u eq_refl Htext Hc2)
    in Hall.
  rewrite (submatches_two (regex memoryParser) m1 (lit +:+ u) lit u eq_refl) in Hall0
    by congruence.
  unfold MemoryToNumber.
  rewrite (convertResource_groups _ _ _ _ _ _ Hall),
    (convertResource_groups _ _ _ _ _ _ Hall0).
  f_equal. apply scale_resource, memory_suffix_known, Hu.
Qed.

Lemma MemoryToNumber_skips_prefix_witness :
  MemoryToNumber ("-" +:+ "5Gi") = MemoryToNumber "5Gi".
Proof. by apply (MemoryToNumber_skips_prefix "-" "5Gi"). Defined.

End ShiftFacts.

(** ** Where the code leaves the specification *)

Section SchemaLoading.

Variable schema_exists : string -> bool.
Variable File : Type.
Variable os_Open : string -> option File * option error.
Variable ioutil_ReadAll : option File -> string * option error.
Variable json_Unmarshal : string -> value * option error.
Variable json_Marshal : value -> option error.
Variable gojsonschema_Validate :
  list (string * (value -> bool)) -> value -> value -> Result * option error.

(** C5: the errors of loading the schema are not propagated.  Whatever
    errors [os.Open], [ioutil.ReadAll] and [json.Unmarshal] return, the
    first is only logged and the other two are dropped: the call goes on
    with what was decoded, the nil schema when nothing was, and returns
    what it returns for that schema.  Only an error that
    [gojsonschema.Validate] itself returns for that schema ends the call,
    with ok=false and the engine's error. *)
Theorem schema_load_errors_dropped templatejson schemafile
    jsonFile oerr bytes rerr schemajson uerr :
  os_Open (schema_path schemafile) = (jsonFile, oerr) →
  ioutil_ReadAll jsonFile = (bytes, rerr) →
  json_Unmarshal bytes = (schemajson, uerr) →
  DeploymentTemplateValidate schema_exists
    (read_schema File os_Open ioutil_ReadAll json_Unmarshal)
    json_Marshal gojsonschema_Validate templatejson schemafile
  = DeploymentTemplateValidate schema_exists (λ _, schemajson)
      json_Marshal gojsonschema_Validate templatejson schemafile
  ∧ (∀ result err,
       schema_exists schemafile = true →
       json_Marshal templatejson = None →
       gojsonschema_Validate FormatCheckers schemajson templatejson
       = (result, Some err) →
       DeploymentTemplateValidate schema_exists
         (read_schema File os_Open ioutil_ReadAll json_Unmarshal)
         json_Marshal gojsonschema_Validate templatejson schemafile
       = Ret (false, Some err))
  ∧ (∀ result,
       schema_exists schemafile = true →
       json_Marshal templatejson = None →
       gojsonschema_Validate FormatCheckers schemajson templatejson
       = (result, None) →
       Valid result = false →
       DeploymentTemplateValidate schema_exists
         (read_schema File os_Open ioutil_ReadAll json_Unmarshal)
         json_Marshal gojsonschema_Validate templatejson schemafile
       = Ret (false, Some (ErrorString
                (concat_strings (map render_error (Errors result)))))).
Proof.
  intros Ho Hr Hu.
  assert (read_schema File os_Open ioutil_ReadAll json_Unmarshal schemafile = schemajson)
    as Hread by (unfold read_schema; by rewrite Ho, Hr, Hu).
  split; [|split].
  - unfold DeploymentTemplateValidate. by rewrite Hread.
  - intros result err Hex Hm Hv. unfold DeploymentTemplateValidate.
    by rewrite Hex, Hread, Hm, Hv.
  - intros result Hex Hm Hv Hvalid. unfold DeploymentTemplateValidate.
    rewrite Hex, Hread, Hm, Hv, Hvalid. by rewrite fold_left_append.
Qed.

End SchemaLoading.

Lemma schema_load_errors_dropped_witness :
  DeploymentTemplateValidate any_file
    (read_schema unit open_denied read_nil_file decode_object)
    marshals needs_schema (VMap ∅) "deployment"
  = Ret (false, Some (ErrorString "schema is invalid"))
  ∧ open_denied (schema_path "deployment")
    = (None, Some (ErrorString "open schema/deployment.json: permission denied")).
Proof.
  split; [|reflexivity].
  refine (proj1 (proj2 (schema_load_errors_dropped any_file unit open_denied
           read_nil_file decode_object marshals needs_schema (VMap ∅) "deployment"
           None (Some (ErrorString "open schema/deployment.json: permission denied"))
           "" (Some (ErrorString "invalid argument"))
           VNil (Some (ErrorString "unexpected end of JSON input")) _ _ _))
           {| Valid := false; Errors := [] |} _ _ _ _); reflexivity.
Defined.

(** C7: equal limits and requests pass, and a cpu limit of 500m under a
    request of 900m fails with the one message; but a cpu limit of 0.5
    under a request of 0.9, two texts that the cpu checker accepts, passes:
    both are read as 0, the digits before the point.  [Autoscale] does the
    same. *)
Theorem limit_below_request_passes :
  CpuChecker_IsFormat (VString "0.5") = true
  ∧ CpuChecker_IsFormat (VString "0.9") = true
  ∧ CpuToNumber "0.5" = Ret (f64_zero, None)
  ∧ CpuToNumber "0.9" = Ret (f64_zero, None)
  ∧ DeploymentTemplateValidate any_file no_schema marshals accept_all
      (VMap (cpu_document "0.5" "0.9")) "deployment" = Ret (true, None)
  ∧ Autoscale (cpu_document "0.5" "0.9") = Ret (true, None)
  ∧ DeploymentTemplateValidate any_file no_schema marshals accept_all
      (VMap (cpu_document "500m" "900m")) "deployment"
    = Ret (false, Some (ErrorString "requests is greater than limits"))
  ∧ Autoscale (cpu_document "500m" "900m")
    = Ret (false, Some (ErrorString "requests is greater than limits"))
  ∧ DeploymentTemplateValidate any_file no_schema marshals accept_all
      (VMap (cpu_document "500m" "500m")) "deployment" = Ret (true, None)
  ∧ Autoscale (cpu_document "500m" "500m") = Ret (true, None).
Proof. by vm_compute. Qed.

(** C9: ["1Gi"] and ["100Mi"] are read as specified; but ["1.5Gi"] is
    read as 5Gi, not as 1.5Gi, and ["0.5"] as 5 bytes: the literal group
    holds digits only and the pattern is not anchored, so that the match
    found is the one after the point. *)
Theorem MemoryToNumber_examples :
  MemoryToNumber "1Gi" = Ret (f64_of_Z 1073741824, None)
  ∧ MemoryToNumber "100Mi" = Ret (f64_of_Z 104857600, None)
  ∧ MemoryToNumber "1.5Gi" = Ret (f64_of_Z 5368709120, None)
  ∧ f64_of_Z 5368709120 ≠ f64_of_Z 1610612736
  ∧ MemoryToNumber "0.5" = Ret (f64_of_Z 5, None)
  ∧ f64_of_Z 5 ≠ f64_of_decimal false 5 (-1).
Proof. by vm_compute. Qed.
